(** * Verification of the electron-chrome-extensions shell

    Two pieces of the repository are embedded here:

    - [EventBridge]: [renderer/event.ts] of the electron-chrome-extensions
      package, the listener registry that multiplexes local callbacks
      over one host-side subscription per event name;
    - [Loader] and [Shell]: the shell's main-process controller
      (extension discovery, [TabbedBrowserWindow], [Browser] and the
      capability provider handed to [ElectronChromeExtensions]).

    JavaScript objects that are mutated in place are modelled by explicit
    state passing; operations that can throw return a [result]. *)

From Stdlib Require Import Ascii String ZArith Lia.
From stdpp Require Import base strings gmap list.

(** ** JavaScript values

    The values the embedded code inspects with [typeof], [||] and [if].
    Window identifiers are integers handed out by Electron, so a number
    is a [Z]; [JObject] stands for any object. *)

Inductive JsVal :=
  | JUndefined
  | JNull
  | JBool (b : bool)
  | JNum (n : Z)
  | JStr (s : string)
  | JObject.

#[global] Instance JsVal_eq_dec : EqDecision JsVal.
Proof. solve_decision. Defined.

Definition truthy (v : JsVal) : bool :=
  match v with
  | JUndefined | JNull => false
  | JBool b => b
  | JNum n => negb (n =? 0)%Z
  | JStr s => negb (String.eqb s "")
  | JObject => true
  end.

(** ** Results of operations that may throw *)

Inductive JsError :=
  | UnableToFindWindowId (windowId : JsVal)
  | UnableToFindParentWindow (type : string)
  | ReferenceError (identifier : string)
  | TypeError (message : string)
  | ENOENT
  | ENOTDIR.

Inductive result (A : Type) :=
  | Ok (a : A)
  | Throw (e : JsError).
Arguments Ok {A} a.
Arguments Throw {A} e.

Definition and_then {A B} (r : result A) (k : A → result B) : result B :=
  match r with
  | Ok a => k a
  | Throw e => Throw e
  end.

Notation "'let!' x ':=' r 'in' k" := (and_then r (λ x, k))
  (at level 10, x name, r at level 100, k at level 200, only parsing).

(** * The listener registry of [event.ts] *)

Module EventBridge.

(** Function values.  [==] on functions is reference identity: a caller's
    function is identified by a number, and every evaluation of the
    function expression at line 19 of [event.ts] yields a new closure,
    identified by the serial number it was created with, that remembers
    the [callback] it forwards to. *)
Inductive Fn :=
  | UserFn (id : nat)
  | IpcWrapper (serial : nat) (name : string) (callback : Fn).

#[global] Instance Fn_eq_dec : EqDecision Fn.
Proof. solve_decision. Defined.

(** Messages sent to the host with [ipcRenderer.send]. *)
Record WireMsg := Send { channel : string; msg_extensionId : string; msg_name : string }.

#[global] Instance WireMsg_eq_dec : EqDecision WireMsg.
Proof. solve_decision. Defined.

(** The module state: [listenerMap], and what [ipcRenderer] holds: the
    listeners attached per channel and the log of sent messages. *)
Record Bridge := MkBridge {
  listenerMap : gmap string (list Fn);
  ipc_listeners : gmap string (list Fn);
  sent : list WireMsg;
  next_closure : nat
}.

Definition empty_bridge : Bridge :=
  MkBridge ∅ ∅ [] 0.

Definition formatIpcName (name : string) : string := "crx-" +:+ name.

(** [Array.prototype.findIndex] with the predicate [element == callback]:
    the first matching index, or [-1]. *)
Fixpoint findIndex (callback : Fn) (listeners : list Fn) : Z :=
  match listeners with
  | [] => (-1)%Z
  | element :: rest =>
      if decide (element = callback) then 0%Z
      else let i := findIndex callback rest in
           if (i <? 0)%Z then (-1)%Z else (i + 1)%Z
  end.

(** [listeners.splice(callbackIndex, 1)] for an index in range. *)
Definition splice1 (callbackIndex : Z) (listeners : list Fn) : list Fn :=
  take (Z.to_nat callbackIndex) listeners ++ drop (S (Z.to_nat callbackIndex)) listeners.

(** Node's [EventEmitter]: [addListener] appends, [removeListener]
    removes the most recently added listener that is the given function,
    [emit] calls the attached listeners in order. *)
Definition ipc_get (channel : string) (b : Bridge) : list Fn :=
  default [] (ipc_listeners b !! channel).

Fixpoint remove_first (f : Fn) (l : list Fn) : list Fn :=
  match l with
  | [] => []
  | g :: rest => if decide (g = f) then rest else g :: remove_first f rest
  end.

Definition remove_last (f : Fn) (l : list Fn) : list Fn :=
  rev (remove_first f (rev l)).

Definition ipc_addListener (channel : string) (f : Fn) (b : Bridge) : Bridge :=
  MkBridge (listenerMap b)
           (<[channel := ipc_get channel b ++ [f]]> (ipc_listeners b))
           (sent b) (next_closure b).

Definition ipc_removeListener (channel : string) (f : Fn) (b : Bridge) : Bridge :=
  match ipc_listeners b !! channel with
  | None => b
  | Some l =>
      MkBridge (listenerMap b)
               (<[channel := remove_last f l]> (ipc_listeners b))
               (sent b) (next_closure b)
  end.

Definition ipc_send (m : WireMsg) (b : Bridge) : Bridge :=
  MkBridge (listenerMap b) (ipc_listeners b) (sent b ++ [m]) (next_closure b).

Definition set_listeners (name : string) (l : list Fn) (b : Bridge) : Bridge :=
  MkBridge (<[name := l]> (listenerMap b)) (ipc_listeners b) (sent b) (next_closure b).

Definition delete_listeners (name : string) (b : Bridge) : Bridge :=
  MkBridge (delete name (listenerMap b)) (ipc_listeners b) (sent b) (next_closure b).

Definition fresh_wrapper (name : string) (callback : Fn) (b : Bridge) : Fn * Bridge :=
  (IpcWrapper (next_closure b) name callback,
   MkBridge (listenerMap b) (ipc_listeners b) (sent b) (S (next_closure b))).

(** [addExtensionListener], lines 7-25. *)
Definition addExtensionListener (extensionId name : string) (callback : Fn)
    (b : Bridge) : Bridge :=
  let '(listeners, b1) :=
    match listenerMap b !! name with
    | None =>
        let b' := ipc_send (Send "crx-add-listener" extensionId name) b in
        ([], set_listeners name [] b')
    | Some listeners => (listeners, b)
    end in
  (* [listeners.push(callback)] mutates the array held by the map *)
  let b2 := set_listeners name (listeners ++ [callback]) b1 in
  let '(wrapper, b3) := fresh_wrapper name callback b2 in
  ipc_addListener (formatIpcName name) wrapper b3.

(** [removeExtensionListener], lines 27-43.  After [listenerMap.delete]
    the array is reachable from the local [listeners] only, so the
    [splice] is not visible in the map. *)
Definition removeExtensionListener (extensionId name : string) (callback : Fn)
    (b : Bridge) : Bridge :=
  let b1 :=
    match listenerMap b !! name with
    | Some listeners =>
        let b' := delete_listeners name b in
        let callbackIndex := findIndex callback listeners in
        let listeners' :=
          if (callbackIndex >? -1)%Z then splice1 callbackIndex listeners
          else listeners in
        if decide (length listeners' = 0)
        then ipc_send (Send "crx-remove-listener" extensionId name) b'
        else b'
    | None => b
    end in
  ipc_removeListener (formatIpcName name) callback b1.

(** [hasExtensionListener], lines 45-60. *)
Definition hasExtensionListener (extensionId name : string) (callback : Fn)
    (b : Bridge) : bool :=
  match listenerMap b !! name with
  | Some listeners => bool_decide (findIndex callback listeners > -1)%Z
  | None => false
  end.

(** What runs when a function value is called: a caller's function runs
    itself, the closure of line 19 calls its [callback]. *)
Fixpoint invoked (f : Fn) : list Fn :=
  match f with
  | UserFn id => [UserFn id]
  | IpcWrapper _ _ callback => invoked callback
  end.

(** The host delivers an occurrence of [name]: [ipcRenderer] emits on
    the channel [crx-name]; the result lists the functions of callers
    that the attached listeners call, in order.  All of them run when
    none of them throws; [emit] below stops at one that throws. *)
Definition dispatch (name : string) (b : Bridge) : list Fn :=
  flat_map invoked (ipc_get (formatIpcName name) b).

(** [EventEmitter.emit] calls the listeners one after the other without
    catching anything, and the closure of line 19 has no [try] either: a
    callback that throws ends the emit, and the listeners after it are
    not called.  [throws] tells which functions of callers throw when
    called; the result lists the functions that are called, the last of
    them being the one that threw, if one did. *)
Fixpoint emit_listeners (throws : Fn → bool) (listeners : list Fn) : list Fn :=
  match listeners with
  | [] => []
  | listener :: rest =>
      invoked listener
      ++ (if existsb throws (invoked listener) then [] else emit_listeners throws rest)
  end.

Definition emit (throws : Fn → bool) (name : string) (b : Bridge) : list Fn :=
  emit_listeners throws (ipc_get (formatIpcName name) b).

(** Sequences of calls, and the quantities the reference count is about. *)
Inductive Call :=
  | Add (extensionId name : string) (callback : Fn)
  | Remove (extensionId name : string) (callback : Fn).

Definition step (b : Bridge) (c : Call) : Bridge :=
  match c with
  | Add e n f => addExtensionListener e n f b
  | Remove e n f => removeExtensionListener e n f b
  end.

Definition run (calls : list Call) (b : Bridge) : Bridge :=
  fold_left step calls b.

Definition count_sent (ch name : string) (b : Bridge) : nat :=
  length (filter (λ m, channel m = ch ∧ msg_name m = name) (sent b)).

(** add-listener messages sent minus remove-listener messages sent. *)
Definition outstanding (name : string) (b : Bridge) : Z :=
  (Z.of_nat (count_sent "crx-add-listener" name b)
   - Z.of_nat (count_sent "crx-remove-listener" name b))%Z.

Definition callback_count (name : string) (b : Bridge) : nat :=
  length (default [] (listenerMap b !! name)).

End EventBridge.

(** * Extension discovery: [manifestExists], [VERSION_REGEX], [loadExtensions] *)

Module Loader.

(** Regular expressions over characters, matched by derivatives.  A
    pattern anchored with [^] and [$] and used without flags accepts a
    string exactly when the whole string is in its language. *)
Inductive regex :=
  | Void
  | Eps
  | Class (p : ascii → bool)
  | Cat (r s : regex)
  | Alt (r s : regex)
  | Star (r : regex).

Fixpoint nullable (r : regex) : bool :=
  match r with
  | Void => false
  | Eps => true
  | Class _ => false
  | Cat r s => nullable r && nullable s
  | Alt r s => nullable r || nullable s
  | Star _ => true
  end.

Fixpoint deriv (c : ascii) (r : regex) : regex :=
  match r with
  | Void => Void
  | Eps => Void
  | Class p => if p c then Eps else Void
  | Cat r s =>
      if nullable r then Alt (Cat (deriv c r) s) (deriv c s)
      else Cat (deriv c r) s
  | Alt r s => Alt (deriv c r) (deriv c s)
  | Star r => Cat (deriv c r) (Star r)
  end.

Fixpoint matches (r : regex) (s : string) : bool :=
  match s with
  | EmptyString => nullable r
  | String c s' => matches (deriv c r) s'
  end.

(** [\d] without the unicode flag is [0-9]. *)
Definition digit : regex :=
  Class (λ c, (48 <=? nat_of_ascii c) && (nat_of_ascii c <=? 57)).

Definition chr (c : ascii) : regex := Class (Ascii.eqb c).

Definition plus (r : regex) : regex := Cat r (Star r).

Definition opt (r : regex) : regex := Alt r Eps.

Fixpoint exactly (n : nat) (r : regex) : regex :=
  match n with
  | 0 => Eps
  | S n => Cat r (exactly n r)
  end.

Fixpoint at_most (n : nat) (r : regex) : regex :=
  match n with
  | 0 => Eps
  | S n => opt (Cat r (at_most n r))
  end.

(** [r{lo,hi}] *)
Definition repeat_range (lo hi : nat) (r : regex) : regex :=
  Cat (exactly lo r) (at_most (hi - lo) r).

(** Line 31: [/^(?:\d+\.?){2,4}_\d+$/]. *)
Definition VERSION_REGEX : regex :=
  Cat (repeat_range 2 4 (Cat (plus digit) (opt (chr "."))))
      (Cat (chr "_") (plus digit)).

(** The file system as [fs] sees it: a tree of named entries; a path is
    the list of its components from the root.  [readdir] yields names
    without separators, so [path.join] of a path and a name appends a
    component. *)
#[warnings="-register-all"] Inductive Node :=
  | File
  | Directory (entries : list (string * Node)).

Definition Path := list string.

Record Dirent := MkDirent { name : string; isDirectory : bool }.

Definition is_dir (n : Node) : bool :=
  match n with
  | Directory _ => true
  | File => false
  end.

Definition child (entries : list (string * Node)) (x : string) : option Node :=
  snd <$> find (λ e, String.eqb (fst e) x) entries.

Fixpoint resolve (p : Path) (n : Node) : option Node :=
  match p with
  | [] => Some n
  | x :: rest =>
      match n with
      | File => None
      | Directory entries =>
          match child entries x with
          | Some c => resolve rest c
          | None => None
          end
      end
  end.

(** The error code of a path that does not resolve: [ENOTDIR] when a
    component is looked up in a regular file, [ENOENT] when a directory
    has no entry of the name. *)
Fixpoint lookup_error (p : Path) (n : Node) : JsError :=
  match p, n with
  | _ :: _, File => ENOTDIR
  | x :: rest, Directory entries =>
      match child entries x with
      | Some c => lookup_error rest c
      | None => ENOENT
      end
  | [], _ => ENOENT
  end.

(** [fs.readdir(path, { withFileTypes: true })] *)
Definition readdir (root : Node) (p : Path) : result (list Dirent) :=
  match resolve p root with
  | Some (Directory entries) =>
      Ok (map (λ e, MkDirent (fst e) (is_dir (snd e))) entries)
  | Some File => Throw ENOTDIR
  | None => Throw (lookup_error p root)
  end.

(** [path.join(extPath, x)]: Node validates every argument and throws a
    [TypeError] for one that is not a string. *)
Definition path_join (p : Path) (x : option string) : result Path :=
  match x with
  | Some s => Ok (p ++ [s])
  | None => Throw (TypeError "ERR_INVALID_ARG_TYPE")
  end.

(** [manifestExists], lines 21-29; a failing [fs.stat] is caught. *)
Definition manifestExists (root : Node) (dirPath : option Path) : bool :=
  match dirPath with
  | None => false
  | Some p =>
      match resolve (p ++ ["manifest.json"]) root with
      | Some File => true
      | _ => false
      end
  end.

(** The first entry of [extSubDirs] that is a directory with a name
    matching [VERSION_REGEX], line 51-53. *)
Definition versionDir (extSubDirs : list Dirent) : option string :=
  name <$> find (λ dir, isDirectory dir && matches VERSION_REGEX (name dir)) extSubDirs.

(** The body of the [async (dirEnt) => ...] callback, lines 40-59: the
    promise resolves to a path, resolves to [undefined] ([None]) or
    rejects. *)
Definition candidate (root : Node) (extensionsPath : Path) (dirEnt : Dirent)
    : result (option Path) :=
  let extPath := extensionsPath ++ [name dirEnt] in
  if manifestExists root (Some extPath) then Ok (Some extPath)
  else
    let! extSubDirs := readdir root extPath in
    let! versionDirPath := path_join extPath (versionDir extSubDirs) in
    if manifestExists root (Some versionDirPath) then Ok (Some versionDirPath)
    else Ok None.

(** [Promise.all]: rejects as soon as one of the promises rejects. *)
Fixpoint promise_all {A} (l : list (result A)) : result (list A) :=
  match l with
  | [] => Ok []
  | r :: rest =>
      let! a := r in
      let! rest' := promise_all rest in
      Ok (a :: rest')
  end.

(** Lines 33-60 and the [filter(Boolean)] of line 64: the load list. *)
Definition extensionDirectories (root : Node) (extensionsPath : Path)
    : result (list Path) :=
  let! subDirectories := readdir root extensionsPath in
  let! found := promise_all (map (candidate root extensionsPath)
                                 (filter (λ d, isDirectory d = true) subDirectories)) in
  Ok (omap id found).

(** Lines 62-74, for a session whose [loadExtension] is [load]: a failed
    load is logged and the loop goes on. *)
Definition loadExtensions {Info} (load : Path → result Info) (root : Node)
    (extensionsPath : Path) : result (list Info) :=
  let! paths := extensionDirectories root extensionsPath in
  Ok (omap (λ extPath, match load extPath with
                       | Ok extensionInfo => Some extensionInfo
                       | Throw _ => None
                       end) paths).

(** The directory names the specification describes: a numeric
    dot-separated version, optionally followed by an underscore and a
    build number.  Used only to compare with [VERSION_REGEX]. *)
Definition spec_version_name : regex :=
  Cat (plus digit)
      (Cat (Star (Cat (chr ".") (plus digit)))
           (opt (Cat (chr "_") (plus digit)))).

End Loader.

(** * The shell's controller: [TabbedBrowserWindow], [Browser] and the
      capability provider *)

Module Shell.

(** What a surface is navigated to: a value handed in by a caller, or
    the string [path.join] makes of the given segments. *)
Inductive Url :=
  | Given (v : JsVal)
  | PathJoin (segments : list string).

#[global] Instance Url_eq_dec : EqDecision Url.
Proof. solve_decision. Defined.

(** A [path.join] of non-empty segments is a non-empty string. *)
Definition url_truthy (u : Url) : bool :=
  match u with
  | Given v => truthy v
  | PathJoin _ => true
  end.

(** Electron's [BrowserWindow] objects.  They are shared and mutated in
    place, so they live in a store and are referred to by their position
    in it (a handle). *)
Record BrowserWindowObj := MkBrowserWindow {
  bw_id : Z;
  bw_webContents : Z;
  bw_destroyed : bool;
  bw_focused : bool;
  bw_loads : list Url
}.

(** A [webContents] as the resolution of its owning window sees it:
    [getType()] and [getOwnerBrowserWindow()]. *)
Record WebContents := MkWebContents {
  wc_id : Z;
  wc_type : string;
  wc_owner : option nat
}.

(** Modelled from the spec: a [Tab] of [./tabs], which is not among the
    sources: its identifier, its content handle, its owning-window handle
    and the navigations of its content, oldest first. *)
Record Tab := MkTab {
  tab_id : Z;
  tab_window : nat;
  tab_webContents : Z;
  tab_loads : list Url
}.

(** Modelled from the spec: the [Tabs] collection of [./tabs], which is
    not among the sources: an ordered collection of tabs with a
    [selected] pointer.  Tabs are objects shared between the collection
    and its callers, so the collection holds handles into the store of
    tab objects. *)
Record Tabs := MkTabs {
  tabs_window : nat;
  tabList : list nat;
  selected : option nat
}.

(** [TabbedBrowserWindow], lines 91-134; [initialUrl] is the
    [options.initialUrl] the [tab-created] handler closes over.  The
    [session] and [extensions] fields are references to collaborators
    and are left out. *)
Record TabbedBrowserWindow := MkWindow {
  id : Z;
  window : nat;
  webContents : Z;
  tabs : Tabs;
  initialUrl : Url
}.

(** [this.popup], as far as line 172-173 reads it. *)
Record Popup := MkPopup {
  popup_browserWindow : option nat;
  popup_parent : nat
}.

(** The controller's state together with the Electron objects it refers
    to.  [windows] is only ever appended to, so a position in it
    identifies a [TabbedBrowserWindow] object; [microtasks] lists the
    windows whose initial tab is still queued (line 120). *)
Record Browser := MkBrowser {
  windows : list TabbedBrowserWindow;
  electron : list BrowserWindowObj;
  tab_objects : list Tab;
  popup : option Popup;
  webuiExtensionId : option string;
  next_id : Z;
  microtasks : list nat
}.

Definition set_windows (ws : list TabbedBrowserWindow) (st : Browser) : Browser :=
  MkBrowser ws (electron st) (tab_objects st) (popup st) (webuiExtensionId st)
            (next_id st) (microtasks st).

Definition set_electron (e : list BrowserWindowObj) (st : Browser) : Browser :=
  MkBrowser (windows st) e (tab_objects st) (popup st) (webuiExtensionId st)
            (next_id st) (microtasks st).

Definition set_tab_objects (ts : list Tab) (st : Browser) : Browser :=
  MkBrowser (windows st) (electron st) ts (popup st) (webuiExtensionId st)
            (next_id st) (microtasks st).

Definition set_next_id (n : Z) (st : Browser) : Browser :=
  MkBrowser (windows st) (electron st) (tab_objects st) (popup st)
            (webuiExtensionId st) n (microtasks st).

Definition set_microtasks (q : list nat) (st : Browser) : Browser :=
  MkBrowser (windows st) (electron st) (tab_objects st) (popup st)
            (webuiExtensionId st) (next_id st) q.

Definition set_tabs (ts : Tabs) (w : TabbedBrowserWindow) : TabbedBrowserWindow :=
  MkWindow (id w) (window w) (webContents w) ts (initialUrl w).

(** ** Electron *)

(** [window.isDestroyed()]; a handle always refers to an object of the
    store, a dangling one is read as destroyed. *)
Definition isDestroyed (h : nat) (st : Browser) : bool :=
  match electron st !! h with
  | Some o => bw_destroyed o
  | None => true
  end.

(** [window.isFocused()]: Electron throws on a destroyed object. *)
Definition isFocused (h : nat) (st : Browser) : result bool :=
  match electron st !! h with
  | Some o =>
      if bw_destroyed o then Throw (TypeError "Object has been destroyed")
      else Ok (bw_focused o)
  | None => Throw (TypeError "Object has been destroyed")
  end.

(** [window.destroy()] *)
Definition BrowserWindow_destroy (h : nat) (st : Browser) : Browser :=
  set_electron
    (alter (λ o, MkBrowserWindow (bw_id o) (bw_webContents o) true false (bw_loads o))
           h (electron st)) st.

(** [BrowserWindow.getFocusedWindow()]: the live window that has the
    focus, or [null]. *)
Definition BrowserWindow_getFocusedWindow (st : Browser) : option nat :=
  fst <$> list_find (λ o, bw_destroyed o = false ∧ bw_focused o = true) (electron st).

(** [BrowserWindow.fromWebContents(tab)]: the live window whose own
    content this is, or [null]. *)
Definition BrowserWindow_fromWebContents (wc : WebContents) (st : Browser) : option nat :=
  fst <$> list_find (λ o, bw_destroyed o = false ∧ bw_webContents o = wc_id wc) (electron st).

(** [new BrowserWindow(options.window)]: Electron hands out the
    identifiers.  The result is the handle and the new object. *)
Definition BrowserWindow_new (st : Browser) : (nat * BrowserWindowObj) * Browser :=
  let o := MkBrowserWindow (next_id st) (next_id st + 1) false false [] in
  ((length (electron st), o),
   set_next_id (next_id st + 2) (set_electron (electron st ++ [o]) st)).

Definition BrowserWindow_loadURL (h : nat) (u : Url) (st : Browser) : Browser :=
  set_electron
    (alter (λ o, MkBrowserWindow (bw_id o) (bw_webContents o) (bw_destroyed o)
                                 (bw_focused o) (bw_loads o ++ [u]))
           h (electron st)) st.

(** ** The tab collection *)

(** [tab.loadURL(url)] and [tab.webContents.loadURL(url)]: navigate the
    tab's content. *)
Definition Tab_loadURL (t : nat) (u : Url) (st : Browser) : Browser :=
  set_tab_objects
    (alter (λ o, MkTab (tab_id o) (tab_window o) (tab_webContents o) (tab_loads o ++ [u]))
           t (tab_objects st)) st.

(** The [tab-created] handler, lines 109-114.  [extensions.addTab] is a
    notification to the extensions library and changes nothing here. *)
Definition onTabCreated (w : TabbedBrowserWindow) (t : nat) (st : Browser) : Browser :=
  if url_truthy (initialUrl w) then Tab_loadURL t (initialUrl w) st else st.

(** Modelled from the spec: [tabs.create()] of the missing [./tabs].  It
    makes a new tab owned by the collection's window, appends it to the
    collection and emits [tab-created]; by the invariant that a window
    has exactly one selected tab once it has a tab, the first tab of an
    empty collection becomes the selected one. *)
Definition Tabs_create (i : nat) (w : TabbedBrowserWindow) (st : Browser)
    : (nat * Tab) * Browser :=
  let t := length (tab_objects st) in
  let tab := MkTab (next_id st) (tabs_window (tabs w)) (next_id st) [] in
  let st1 := set_next_id (next_id st + 1) (set_tab_objects (tab_objects st ++ [tab]) st) in
  let ts := MkTabs (tabs_window (tabs w)) (tabList (tabs w) ++ [t])
                   (match selected (tabs w) with
                    | Some s => Some s
                    | None => Some t
                    end) in
  let w' := set_tabs ts w in
  let st2 := set_windows (<[i := w']> (windows st1)) st1 in
  ((t, tab), onTabCreated w' t st2).

(** Modelled from the spec: [tabs.select(id)] of the missing [./tabs]:
    the tab of the collection with that identifier becomes the selected
    one; an identifier of no tab of the collection changes nothing.  The
    [tab-selected] handler (line 116) only notifies the extensions
    library. *)
Definition Tabs_select (i : nat) (w : TabbedBrowserWindow) (tabId : Z)
    (st : Browser) : Browser :=
  match find (λ t, bool_decide (tab_id <$> tab_objects st !! t = Some tabId))
             (tabList (tabs w)) with
  | Some t =>
      set_windows
        (<[i := set_tabs (MkTabs (tabs_window (tabs w)) (tabList (tabs w)) (Some t)) w]>
           (windows st)) st
  | None => st
  end.

(** Modelled from the spec: [tabs.destroy()] of the missing [./tabs]: the
    collection gives up all its tabs. *)
Definition Tabs_destroy (i : nat) (w : TabbedBrowserWindow) (st : Browser) : Browser :=
  set_windows
    (<[i := set_tabs (MkTabs (tabs_window (tabs w)) [] None) w]> (windows st)) st.

(** The window object at position [i], as it is now. *)
Definition window_at (i : nat) (st : Browser) : option TabbedBrowserWindow :=
  windows st !! i.

(** [win.tabs.create()] on the window object at position [i]. *)
Definition win_tabs_create (i : nat) (st : Browser) : option (nat * Tab) * Browser :=
  match window_at i st with
  | Some w => let '(t, st') := Tabs_create i w st in (Some t, st')
  | None => (None, st)
  end.

Definition win_tabs_select (i : nat) (tabId : Z) (st : Browser) : Browser :=
  match window_at i st with
  | Some w => Tabs_select i w tabId st
  | None => st
  end.

(** [TabbedBrowserWindow.destroy], lines 126-129. *)
Definition TabbedBrowserWindow_destroy (i : nat) (st : Browser) : Browser :=
  match window_at i st with
  | Some w => BrowserWindow_destroy (window w) (Tabs_destroy i w st)
  | None => st
  end.

(** ** [Browser] *)

(** [this.windows.find((w) => w.window.isFocused())] *)
Fixpoint find_focused (ws : list TabbedBrowserWindow) (st : Browser)
    : result (option TabbedBrowserWindow) :=
  match ws with
  | [] => Ok None
  | w :: rest =>
      let! focused := isFocused (window w) st in
      if focused then Ok (Some w) else find_focused rest st
  end.

(** [Browser.getFocusedWindow], lines 161-163. *)
Definition getFocusedWindow (st : Browser) : result (option TabbedBrowserWindow) :=
  let! found := find_focused (windows st) st in
  match found with
  | Some w => Ok (Some w)
  | None => Ok (head (windows st))
  end.

(** [Browser.getWindowFromBrowserWindow], lines 165-167; the result is
    the window object and its position in [windows]. *)
Definition getWindowFromBrowserWindow (h : nat) (st : Browser)
    : option (nat * TabbedBrowserWindow) :=
  match electron st !! h with
  | Some o =>
      if bw_destroyed o then None
      else list_find (λ win, id win = bw_id o) (windows st)
  | None => None
  end.

(** [getParentWindowOfTab], lines 77-89. *)
Definition getParentWindowOfTab (tab : WebContents) (st : Browser) : result (option nat) :=
  if String.eqb (wc_type tab) "window" then Ok (BrowserWindow_fromWebContents tab st)
  else if String.eqb (wc_type tab) "browserView" || String.eqb (wc_type tab) "webview"
  then Ok (wc_owner tab)
  else if String.eqb (wc_type tab) "backgroundPage" then Ok (BrowserWindow_getFocusedWindow st)
  else Throw (UnableToFindParentWindow (wc_type tab)).

(** [this.popup && webContents === this.popup.browserWindow?.webContents] *)
Definition is_popup_content (wc : WebContents) (st : Browser) : option Popup :=
  match popup st with
  | Some p =>
      match popup_browserWindow p with
      | Some h =>
          match electron st !! h with
          | Some o => if bool_decide (bw_webContents o = wc_id wc) then Some p else None
          | None => None
          end
      | None => None
      end
  | None => None
  end.

(** [Browser.getWindowFromWebContents], lines 169-179. *)
Definition getWindowFromWebContents (wc : WebContents) (st : Browser)
    : result (option (nat * TabbedBrowserWindow)) :=
  let! window :=
    match is_popup_content wc st with
    | Some p => Ok (Some (popup_parent p))
    | None => getParentWindowOfTab wc st
    end in
  match window with
  | Some h => Ok (getWindowFromBrowserWindow h st)
  | None => Ok None
  end.

(** The [TabbedBrowserWindow] constructor, lines 92-124, for the options
    [Browser.createWindow] passes.  [path.join] throws when
    [webuiExtensionId] is still [undefined]; the [BrowserWindow] exists
    by then. *)
Definition TabbedBrowserWindow_new (options_initialUrl : Url) (st : Browser)
    : result TabbedBrowserWindow * Browser :=
  let '((h, o), st1) := BrowserWindow_new st in
  match webuiExtensionId st1 with
  | None => (Throw (TypeError "ERR_INVALID_ARG_TYPE"), st1)
  | Some extId =>
      let webuiUrl := PathJoin ["chrome-extension://"; extId; "/webui.html"] in
      let st2 := BrowserWindow_loadURL h webuiUrl st1 in
      (Ok (MkWindow (bw_id o) h (bw_webContents o) (MkTabs h [] None) options_initialUrl),
       st2)
  end.

(** [Browser.createWindow], lines 263-293: the new window is pushed to
    [windows]; the microtask queued by its constructor creates its first
    tab later.  The result is the new window object.  Opening the
    developer tools under [SHELL_DEBUG] changes nothing here. *)
Definition createWindow (options_initialUrl : Url) (st : Browser)
    : result TabbedBrowserWindow * Browser :=
  match TabbedBrowserWindow_new options_initialUrl st with
  | (Throw e, st1) => (Throw e, st1)
  | (Ok win, st1) =>
      let i := length (windows st1) in
      (Ok win, set_microtasks (microtasks st1 ++ [i])
                              (set_windows (windows st1 ++ [win]) st1))
  end.

(** [Browser.createInitialWindow], lines 295-298. *)
Definition newTabUrl_of (st : Browser) : result Url :=
  match webuiExtensionId st with
  | Some extId => Ok (PathJoin ["chrome-extension://"; extId; "new-tab.html"])
  | None => Throw (TypeError "ERR_INVALID_ARG_TYPE")
  end.

Definition createInitialWindow (st : Browser)
    : result TabbedBrowserWindow * Browser :=
  match newTabUrl_of st with
  | Ok newTabUrl => createWindow newTabUrl st
  | Throw e => (Throw e, st)
  end.

(** The queued [this.tabs.create()] of line 120-123 runs. *)
Definition run_microtask (st : Browser) : Browser :=
  match microtasks st with
  | i :: q => snd (win_tabs_create i (set_microtasks q st))
  | [] => st
  end.

(** ** Identifiers in scope

    A frame lists the names a scope declares, with the value of a
    binding where the model tracks it.  An identifier is looked up from
    the innermost frame outwards; one that no frame declares throws a
    [ReferenceError]. *)
Definition Frame := list (string * option Url).

Definition declares (names : list string) : Frame := map (λ x, (x, None)) names.

(** The globals the file refers to. *)
Definition global_frame : Frame :=
  declares ["process"; "console"; "queueMicrotask"; "Promise"; "Boolean";
            "Error"; "RegExp"].

(** Node's module wrapper. *)
Definition wrapper_frame : Frame :=
  declares ["exports"; "require"; "module"; "__filename"; "__dirname"].

(** The top-level declarations of the file, lines 1-136. *)
Definition module_frame : Frame :=
  declares ["path"; "fs"; "app"; "session"; "BrowserWindow"; "Tabs";
            "ElectronChromeExtensions"; "setupMenu"; "buildChromeContextMenu";
            "setupChromeWebStore"; "ROOT_DIR"; "PATHS"; "webuiExtensionId";
            "manifestExists"; "VERSION_REGEX"; "loadExtensions";
            "getParentWindowOfTab"; "TabbedBrowserWindow"; "Browser"].

(** The declarations of [init], lines 181-250. *)
Definition init_frame : Frame := declares ["webuiExtension"; "extensionsPath"].

(** The scope chain of the arrow functions of the capability provider,
    which are written inside [init]. *)
Definition provider_scope : list Frame :=
  [declares ["details"]; init_frame; module_frame; wrapper_frame; global_frame].

(** The scope chain inside [createInitialWindow], whose only declaration
    is the [const newTabUrl] of line 296. *)
Definition createInitialWindow_scope (newTabUrl : Url) : list Frame :=
  [[("newTabUrl", Some newTabUrl)]; module_frame; wrapper_frame; global_frame].

Definition frame_lookup (x : string) (f : Frame) : option (option Url) :=
  snd <$> find (λ b, String.eqb (fst b) x) f.

Fixpoint resolve_identifier (x : string) (chain : list Frame) : result Url :=
  match chain with
  | [] => Throw (ReferenceError x)
  | f :: outer =>
      match frame_lookup x f with
      | Some (Some v) => Ok v
      | Some None => Ok (Given JObject)
      | None => resolve_identifier x outer
      end
  end.

(** [details.url || newTabUrl] as the provider's closures evaluate it:
    the right operand is evaluated only when the left one is falsy. *)
Definition url_or_newTabUrl (url : JsVal) : result Url :=
  if truthy url then Ok (Given url)
  else resolve_identifier "newTabUrl" provider_scope.

(** ** The capability provider, lines 192-227 *)

Record Details := MkDetails {
  windowId : JsVal;
  url : JsVal;
  active : JsVal
}.

(** [typeof details.windowId === 'number' && this.windows.find(...)] *)
Definition find_window (windowId : JsVal) (st : Browser)
    : option (nat * TabbedBrowserWindow) :=
  match windowId with
  | JNum n => list_find (λ w, id w = n) (windows st)
  | _ => None
  end.

(** [typeof details.active === 'boolean' ? details.active : true] *)
Definition activation (active : JsVal) : bool :=
  match active with
  | JBool b => b
  | _ => true
  end.

(** [createTab], lines 192-207: the content handle and the owning-window
    handle of the new tab, or the thrown error. *)
Definition createTab (details : Details) (st : Browser) : result (Z * nat) * Browser :=
  match find_window (windowId details) st with
  | None => (Throw (UnableToFindWindowId (windowId details)), st)
  | Some (i, win) =>
      let '((t, tab), st1) := Tabs_create i win st in
      let loaded :=
        if truthy (url details) then
          match url_or_newTabUrl (url details) with
          | Ok u => Ok (Tab_loadURL t u st1)
          | Throw e => Throw e
          end
        else Ok st1 in
      match loaded with
      | Throw e => (Throw e, st1)
      | Ok st2 =>
          let st3 :=
            if activation (active details) then win_tabs_select i (tab_id tab) st2
            else st2 in
          (Ok (tab_webContents tab, tab_window tab), st3)
      end
  end.

(** [createWindow] of the provider, lines 217-223: the handle of the new
    window's [BrowserWindow]. *)
Definition provider_createWindow (details : Details) (st : Browser)
    : result nat * Browser :=
  match url_or_newTabUrl (url details) with
  | Throw e => (Throw e, st)
  | Ok initialUrl =>
      match createWindow initialUrl st with
      | (Ok win, st1) => (Ok (window win), st1)
      | (Throw e, st1) => (Throw e, st1)
      end
  end.

(** [removeWindow] of the provider, lines 224-227. *)
Definition removeWindow (browserWindow : nat) (st : Browser) : Browser :=
  match getWindowFromBrowserWindow browserWindow st with
  | Some (i, _) => TabbedBrowserWindow_destroy i st
  | None => st
  end.

(** The identifiers of the tracked windows, in the order of [windows]. *)
Definition window_ids (st : Browser) : list Z := id <$> windows st.

(** Electron hands out identifiers in increasing order: every tab that
    exists has an identifier below the next one. *)
Definition ids_fresh (st : Browser) : Prop :=
  ∀ o, o ∈ tab_objects st → (tab_id o < next_id st)%Z.

(** The operations on the controller that are embedded here, as
    commands, to talk about what holds after any sequence of them. *)
Inductive Command :=
  | DoCreateInitialWindow
  | DoMicrotask
  | DoCreateTab (details : Details)
  | DoCreateWindow (details : Details)
  | DoRemoveWindow (browserWindow : nat).

Definition exec (st : Browser) (c : Command) : Browser :=
  match c with
  | DoCreateInitialWindow => snd (createInitialWindow st)
  | DoMicrotask => run_microtask st
  | DoCreateTab details => snd (createTab details st)
  | DoCreateWindow details => snd (provider_createWindow details st)
  | DoRemoveWindow browserWindow => removeWindow browserWindow st
  end.

Definition exec_all (cs : list Command) (st : Browser) : Browser :=
  fold_left exec cs st.

End Shell.

(** * Scenarios used by the examples below *)

Module Scenario.
Import EventBridge Loader Shell.

Definition cbA : Fn := UserFn 0.
Definition cbB : Fn := UserFn 1.
Definition cbC : Fn := UserFn 2.

(** Two callbacks are added for [x], then the first one is removed. *)
Definition two_added_one_removed : Bridge :=
  run [Add "ext" "x" cbA; Add "ext" "x" cbB; Remove "ext" "x" cbA] empty_bridge.

(** ... and then a third callback is added. *)
Definition then_one_added : Bridge :=
  run [Add "ext" "x" cbC] two_added_one_removed.

Definition one_added : Bridge :=
  run [Add "ext" "x" cbA] empty_bridge.

(** An extensions directory whose candidate [c] holds a version
    directory without build suffix that has a manifest, and a version
    directory with suffix that has none. *)
Definition disk_unsuffixed : Node :=
  Directory [("extensions", Directory [
    ("a", Directory [("manifest.json", File)]);
    ("b", Directory [("2024.9.29.1273_0", Directory [("manifest.json", File)])]);
    ("c", Directory [("1.2.3", Directory [("manifest.json", File)]);
                     ("9.9_0", Directory [])])])].

(** An extensions directory with a candidate that has neither a manifest
    nor a version directory. *)
Definition disk_plain_dir : Node :=
  Directory [("extensions", Directory [
    ("a", Directory [("manifest.json", File)]);
    ("d", Directory [("src", Directory [])])])].

(** The controller after [init]: the bundled extension is loaded and the
    initial window exists; its first tab is still queued. *)
Definition started : Browser :=
  snd (createInitialWindow (MkBrowser [] [] [] None (Some "webui") 1 [])).

(** ... and after the queued tab creation ran. *)
Definition ready : Browser := run_microtask started.

(** ... and after the extensions library asked to remove the window. *)
Definition window_removed : Browser := removeWindow 0 ready.

Definition backgroundPage : WebContents := MkWebContents 50 "backgroundPage" None.

End Scenario.

(** * Runs of the listener registry *)

Module BridgeRuns.
Import EventBridge.

(** The number of [addExtensionListener] calls for [name] in a sequence
    of calls. *)
Fixpoint adds_for (name : string) (calls : list Call) : nat :=
  match calls with
  | [] => 0
  | Add _ n _ :: rest => (if String.eqb n name then 1 else 0) + adds_for name rest
  | Remove _ _ _ :: rest => adds_for name rest
  end.

(** A call that passes a function of the caller, not a closure made by
    the registry. *)
Definition passes_user_function (c : Call) : Prop :=
  match c with
  | Add _ _ (UserFn _) | Remove _ _ (UserFn _) => True
  | _ => False
  end.

(** Every registered callback has its closure attached to the channel of
    its name. *)
Definition attached (b : Bridge) : Prop :=
  ∀ name l cb, listenerMap b !! name = Some l → cb ∈ l →
    ∃ serial, IpcWrapper serial name cb ∈ ipc_get (formatIpcName name) b.

(** For every name, the unsubscribe messages sent, plus one if the name
    has an entry, do not exceed the subscribe messages sent. *)
Definition subscribed (b : Bridge) : Prop :=
  ∀ name,
    count_sent "crx-remove-listener" name b
    + match listenerMap b !! name with Some _ => 1 | None => 0 end
    ≤ count_sent "crx-add-listener" name b.

Definition is_wrapper (f : Fn) : Prop :=
  match f with
  | IpcWrapper _ _ _ => True
  | UserFn _ => False
  end.

End BridgeRuns.

(** * The language of a regular expression *)

Module VersionNames.
Import Loader.

(** The strings a regular expression denotes. *)
Inductive lang : regex → string → Prop :=
  | lang_eps : lang Eps ""
  | lang_class p c : p c = true → lang (Class p) (String c "")
  | lang_cat r s x y : lang r x → lang s y → lang (Cat r s) (x +:+ y)
  | lang_alt_l r s x : lang r x → lang (Alt r s) x
  | lang_alt_r r s x : lang s x → lang (Alt r s) x
  | lang_star_nil r : lang (Star r) ""
  | lang_star_cons r x y : lang r x → lang (Star r) y → lang (Star r) (x +:+ y).

Definition is_digit (c : ascii) : bool :=
  (48 <=? nat_of_ascii c) && (nat_of_ascii c <=? 57).

Fixpoint all_chars (p : ascii → bool) (s : string) : bool :=
  match s with
  | EmptyString => true
  | String c s' => p c && all_chars p s'
  end.

(** A non-empty string of decimal digits. *)
Definition number (s : string) : Prop := s ≠ "" ∧ all_chars is_digit s = true.

(** The name Chrome gives the directory of an installed version:
    the parts of the version joined by dots, an underscore, and a build
    number, as in [2024.9.29.1273_0]. *)
Definition version_name (parts : list string) (build : string) : string :=
  String.concat "." parts +:+ "_" +:+ build.

(** One group of [VERSION_REGEX]: [\d+\.?]. *)
Definition group : regex := Cat (plus digit) (opt (chr ".")).

Definition version_char (c : ascii) : bool := is_digit c || Ascii.eqb c ".".

End VersionNames.

(** * The rest of the controller: the provider's tab operations, the
      handlers of [onWebContentsCreated], [activate] and [init] *)

Module Handlers.
Import Shell.

(** [selectTab] of the provider, lines 208-211; [tab] is the content
    whose [id] names the tab. *)
Definition selectTab (tab : WebContents) (browserWindow : nat) (st : Browser) : Browser :=
  match getWindowFromBrowserWindow browserWindow st with
  | Some (i, win) => Tabs_select i win (wc_id tab) st
  | None => st
  end.

(** [removeTab] of the provider, lines 212-215, for a tab collection
    whose [remove(id)] is [Tabs_remove] ([./tabs] is not among the
    sources). *)
Definition removeTab
    (Tabs_remove : nat → TabbedBrowserWindow → Z → Browser → Browser)
    (tab : WebContents) (browserWindow : nat) (st : Browser) : Browser :=
  match getWindowFromBrowserWindow browserWindow st with
  | Some (i, win) => Tabs_remove i win (wc_id tab) st
  | None => st
  end.

(** [this.windows.find((w) => w.window.isFocused())], with the position
    of the window found. *)
Fixpoint find_focused_from (i : nat) (ws : list TabbedBrowserWindow) (st : Browser)
    : result (option (nat * TabbedBrowserWindow)) :=
  match ws with
  | [] => Ok None
  | w :: rest =>
      let! focused := isFocused (window w) st in
      if focused then Ok (Some (i, w)) else find_focused_from (S i) rest st
  end.

(** [Browser.getFocusedWindow], lines 161-163, as a reference to the
    window object: the window and its position in [windows]. *)
Definition focused_window (st : Browser) : result (option (nat * TabbedBrowserWindow)) :=
  let! found := find_focused_from 0 (windows st) st in
  match found with
  | Some r => Ok (Some r)
  | None => Ok ((λ w, (0, w)) <$> head (windows st))
  end.

(** The dispositions for which the window-open handler supplies its own
    [createWindow], lines 310-313. *)
Definition opens_tab (disposition : string) : bool :=
  String.eqb disposition "foreground-tab"
  || String.eqb disposition "background-tab"
  || String.eqb disposition "new-window".

(** The [createWindow] callback of the window-open handler, lines
    316-321, for the content [webContents] that asked to open [url]:
    the content handle of the new tab.  Reading [tabs] of a window that
    did not resolve throws. *)
Definition windowOpen_createWindow (webContents : WebContents) (url : JsVal)
    (st : Browser) : result Z * Browser :=
  match getWindowFromWebContents webContents st with
  | Throw e => (Throw e, st)
  | Ok None => (Throw (TypeError "Cannot read properties of null"), st)
  | Ok (Some (i, win)) =>
      let '((t, tab), st1) := Tabs_create i win st in
      (Ok (tab_webContents tab), Tab_loadURL t (Given url) st1)
  end.

(** The handler installed by [setWindowOpenHandler], lines 309-327:
    [None] when the request is left to Electron ([{ action: 'allow' }]),
    otherwise what the supplied [createWindow] does. *)
Definition windowOpenHandler (webContents : WebContents) (disposition : string)
    (url : JsVal) (st : Browser) : option (result Z * Browser) :=
  if opens_tab disposition then Some (windowOpen_createWindow webContents url st)
  else None.

(** [openLink] of the context menu, lines 334-345. *)
Definition openLink (url : JsVal) (disposition : string) (st : Browser)
    : result unit * Browser :=
  match focused_window st with
  | Throw e => (Throw e, st)
  | Ok win =>
      if String.eqb disposition "new-window" then
        match createWindow (Given url) st with
        | (Ok _, st1) => (Ok tt, st1)
        | (Throw e, st1) => (Throw e, st1)
        end
      else
        match win with
        | None => (Throw (TypeError "Cannot read properties of undefined"), st)
        | Some (i, w) =>
            let '((t, tab), st1) := Tabs_create i w st in
            (Ok tt, Tab_loadURL t (Given url) st1)
        end
  end.

(** [BrowserWindow.getAllWindows()]: Electron's live windows. *)
Definition BrowserWindow_getAllWindows (st : Browser) : list BrowserWindowObj :=
  List.filter (λ o, negb (bw_destroyed o)) (electron st).

(** The [activate] handler, lines 148-152. *)
Definition on_activate (st : Browser) : result unit * Browser :=
  match BrowserWindow_getAllWindows st with
  | [] =>
      match createInitialWindow st with
      | (Ok _, st1) => (Ok tt, st1)
      | (Throw e, st1) => (Throw e, st1)
      end
  | _ :: _ => (Ok tt, st)
  end.

(** The [browser-action-popup-created] handler, lines 230-232. *)
Definition on_popup_created (p : Popup) (st : Browser) : Browser :=
  MkBrowser (windows st) (electron st) (tab_objects st) (Some p)
            (webuiExtensionId st) (next_id st) (microtasks st).

Definition set_webuiExtensionId (extId : string) (st : Browser) : Browser :=
  MkBrowser (windows st) (electron st) (tab_objects st) (popup st)
            (Some extId) (next_id st) (microtasks st).

(** [init], lines 181-250, as far as it touches the controller's state:
    [webui] is what loading the bundled extension gives (its identifier,
    or the error of a failed load, which rejects [init]); the scan of
    the user's extensions runs inside [try]/[catch] and its outcome is
    only logged; then the initial window is created. *)
Definition init {Info} (webui : result string)
    (load : Loader.Path → result Info) (root : Loader.Node)
    (extensionsPath : Loader.Path) (st : Browser) : result unit * Browser :=
  match webui with
  | Throw e => (Throw e, st)
  | Ok extId =>
      let st1 := set_webuiExtensionId extId st in
      let logged :=
        match Loader.loadExtensions load root extensionsPath with
        | Ok _ => tt
        | Throw _ => tt
        end in
      match logged, createInitialWindow st1 with
      | tt, (Ok _, st2) => (Ok tt, st2)
      | tt, (Throw e, st2) => (Throw e, st2)
      end
  end.

(** A controller right after construction: nothing is tracked and the
    bundled extension is not loaded yet; [first_id] is the first
    identifier Electron will hand out. *)
Definition fresh_controller (first_id : Z) : Browser :=
  MkBrowser [] [] [] None None first_id [].

(** Everything the embedded code can do to the controller. *)
Inductive Event :=
  | Run (c : Command)
  | SelectTab (tab : WebContents) (browserWindow : nat)
  | WindowOpen (webContents : WebContents) (url : JsVal)
  | OpenLink (url : JsVal) (disposition : string)
  | Activate
  | PopupCreated (p : Popup)
  | Init (webui : result string).

Definition handle (st : Browser) (ev : Event) : Browser :=
  match ev with
  | Run c => exec st c
  | SelectTab tab browserWindow => selectTab tab browserWindow st
  | WindowOpen webContents url => snd (windowOpen_createWindow webContents url st)
  | OpenLink url disposition => snd (openLink url disposition st)
  | Activate => snd (on_activate st)
  | PopupCreated p => on_popup_created p st
  | Init webui =>
      snd (init (Info := unit) webui (λ _, Ok tt) (Loader.Directory []) [] st)
  end.

Definition handle_all (evs : list Event) (st : Browser) : Browser :=
  fold_left handle evs st.

(** The tracked windows as pairs of presentation-surface handle and
    identifier. *)
Definition tracked (st : Browser) : list (nat * Z) :=
  (λ w, (window w, id w)) <$> windows st.

(** What Electron's unique identifiers give the controller: every
    [BrowserWindow] has an identifier below the next one, no two have
    the same, every tracked window carries the identifier of its own
    [BrowserWindow], and no [BrowserWindow] is tracked twice. *)
Definition tracked_ok (st : Browser) : Prop :=
  (∀ o, o ∈ electron st → (bw_id o < next_id st)%Z)
  ∧ NoDup (bw_id <$> electron st)
  ∧ (∀ h n, (h, n) ∈ tracked st → (bw_id <$> electron st) !! h = Some n)
  ∧ NoDup (fst <$> tracked st).

(** An operation that changes neither which windows are tracked nor
    which [BrowserWindow] objects exist. *)
Definition keeps_tracking (st st' : Browser) : Prop :=
  tracked st' = tracked st
  ∧ bw_id <$> electron st' = bw_id <$> electron st
  ∧ (next_id st ≤ next_id st')%Z.


End Handlers.

(** * Properties of the listener registry *)

Section EventBridgeFacts.
Import EventBridge.

Implicit Types (b : Bridge) (cb f g : Fn) (l : list Fn) (name ext : string).

Lemma findIndex_lower cb l : (-1 ≤ findIndex cb l)%Z.
Proof.
  induction l as [|g l IH]; simpl; [lia|].
  destruct (decide (g = cb)); [lia|].
  destruct (Z.ltb_spec (findIndex cb l) 0); lia.
Qed.

Lemma findIndex_absent cb l : cb ∉ l → findIndex cb l = (-1)%Z.
Proof.
  induction l as [|g l IH]; simpl; [done|].
  intros Hnot. apply not_elem_of_cons in Hnot as [Hne Hl].
  destruct (decide (g = cb)); [congruence|].
  rewrite (IH Hl). reflexivity.
Qed.

Lemma findIndex_present cb l : cb ∈ l → (0 ≤ findIndex cb l)%Z.
Proof.
  induction l as [|g l IH]; simpl.
  - intros H. inversion H.
  - intros H. destruct (decide (g = cb)); [lia|].
    apply elem_of_cons in H as [->|H]; [congruence|].
    specialize (IH H). destruct (Z.ltb_spec (findIndex cb l) 0); lia.
Qed.

(** The closure of line 19 is never the callback it forwards to. *)
Lemma wrapper_is_not_callback cb : ∀ serial name, IpcWrapper serial name cb ≠ cb.
Proof.
  induction cb as [n|s' name' cb IH]; intros serial name Heq.
  - discriminate.
  - injection Heq as _ _ Heq. exact (IH _ _ Heq).
Qed.

Lemma remove_last_snoc f g l : g ≠ f → remove_last f (l ++ [g]) = remove_last f l ++ [g].
Proof.
  intros Hne. unfold remove_last. rewrite rev_app_distr. simpl.
  destruct (decide (g = f)); [congruence|]. reflexivity.
Qed.

Lemma invoked_nonempty cb : invoked cb ≠ [].
Proof. induction cb; simpl; [discriminate|assumption]. Qed.

(** The 0-to-1 transition: a first callback for a name sends exactly one
    subscribe message. *)
Lemma first_add_subscribes ext name cb b :
  listenerMap b !! name = None →
  sent (addExtensionListener ext name cb b)
  = sent b ++ [Send "crx-add-listener" ext name]
  ∧ listenerMap (addExtensionListener ext name cb b) !! name = Some [cb].
Proof.
  intros Hnone. unfold addExtensionListener. rewrite Hnone. simpl.
  split; [reflexivity|]. rewrite insert_insert_eq. apply lookup_insert_eq.
Qed.

(** A further callback for a name that has an entry sends nothing. *)
Lemma later_add_is_silent ext name cb b l :
  listenerMap b !! name = Some l →
  sent (addExtensionListener ext name cb b) = sent b
  ∧ listenerMap (addExtensionListener ext name cb b) !! name = Some (l ++ [cb]).
Proof.
  intros Hsome. unfold addExtensionListener. rewrite Hsome. simpl.
  split; [reflexivity|]. apply lookup_insert_eq.
Qed.

(** The 1-to-0 transition: removing the only callback of a name sends
    exactly one unsubscribe message. *)
Lemma last_remove_unsubscribes ext name cb b :
  listenerMap b !! name = Some [cb] →
  sent (removeExtensionListener ext name cb b)
  = sent b ++ [Send "crx-remove-listener" ext name]
  ∧ listenerMap (removeExtensionListener ext name cb b) !! name = None.
Proof.
  intros Hsome. unfold removeExtensionListener, ipc_removeListener. rewrite Hsome.
  simpl. destruct (decide (cb = cb)); [|congruence]. simpl.
  destruct (ipc_listeners b !! formatIpcName name); simpl;
    (split; [reflexivity|apply lookup_delete_eq]).
Qed.

(** Removing for a name that has no entry changes neither the registry
    nor the messages sent. *)
Lemma remove_unknown_name ext name cb b :
  listenerMap b !! name = None →
  listenerMap (removeExtensionListener ext name cb b) = listenerMap b
  ∧ sent (removeExtensionListener ext name cb b) = sent b.
Proof.
  intros Hnone. unfold removeExtensionListener, ipc_removeListener. rewrite Hnone.
  destruct (ipc_listeners b !! formatIpcName name); simpl; split; reflexivity.
Qed.

Lemma remove_deletes_entry ext name cb b :
  listenerMap (removeExtensionListener ext name cb b) = delete name (listenerMap b).
Proof.
  unfold removeExtensionListener, ipc_removeListener.
  destruct (listenerMap b !! name) as [l|] eqn:Hl.
  - set (l' := if (findIndex cb l >? -1)%Z then _ else _).
    destruct (decide (length l' = 0)); simpl;
      destruct (ipc_listeners b !! formatIpcName name); reflexivity.
  - rewrite delete_id by assumption.
    destruct (ipc_listeners b !! formatIpcName name); reflexivity.
Qed.

Lemma findIndex_upper cb l : (findIndex cb l < Z.of_nat (length l))%Z.
Proof.
  induction l as [|g l IH]; simpl length; simpl findIndex; [lia|].
  destruct (decide (g = cb)); [lia|].
  destruct (Z.ltb_spec (findIndex cb l) 0); lia.
Qed.

Lemma length_splice1 i l :
  (0 ≤ i < Z.of_nat (length l))%Z → length (splice1 i l) = length l - 1.
Proof.
  intros Hi. unfold splice1.
  rewrite length_app, length_take, length_drop. lia.
Qed.

(** Removing one of several callbacks sends nothing and still deletes
    the entry of the name, so that the next callback added for the name
    subscribes again although the host-side subscription is still
    there. *)
Lemma partial_remove_then_add_resubscribes ext name cb cb' b l :
  listenerMap b !! name = Some l → 2 ≤ length l → cb ∈ l →
  sent (removeExtensionListener ext name cb b) = sent b
  ∧ listenerMap (removeExtensionListener ext name cb b) !! name = None
  ∧ sent (addExtensionListener ext name cb' (removeExtensionListener ext name cb b))
    = sent b ++ [Send "crx-add-listener" ext name].
Proof.
  intros Hsome Hlen Hin.
  assert (sent (removeExtensionListener ext name cb b) = sent b) as Hsent.
  { unfold removeExtensionListener, ipc_removeListener. rewrite Hsome.
    pose proof (findIndex_present cb l Hin) as Hlo.
    pose proof (findIndex_upper cb l) as Hhi.
    destruct (Z.gtb_spec (findIndex cb l) (-1)) as [_|Hbad]; [|lia].
    destruct (decide (length (splice1 (findIndex cb l) l) = 0)) as [Hzero|_].
    - rewrite length_splice1 in Hzero by lia. lia.
    - destruct (ipc_listeners _ !! _); reflexivity. }
  assert (listenerMap (removeExtensionListener ext name cb b) !! name = None) as Hnone
    by (rewrite remove_deletes_entry; apply lookup_delete_eq).
  split; [exact Hsent|]. split; [exact Hnone|].
  destruct (first_add_subscribes ext name cb' _ Hnone) as [-> _].
  rewrite Hsent. reflexivity.
Qed.

End EventBridgeFacts.

Section EventBridgeClaims.
Import EventBridge Scenario.

(** C1 (defect in [removeExtensionListener]).  The count of outstanding
    host-side subscriptions does not stay within 0 and 1: line 31 deletes
    the entry of the name on every removal, also when callbacks remain.
    After adding A and B and removing A, the registry holds no callback
    for the name, one subscription is outstanding and B is still
    dispatched to; adding C then subscribes a second time, which leaves
    two outstanding subscriptions for one registered callback. *)
Theorem refcount_lost_after_partial_remove :
  callback_count "x" two_added_one_removed = 0
  ∧ outstanding "x" two_added_one_removed = 1%Z
  ∧ cbB ∈ dispatch "x" two_added_one_removed
  ∧ callback_count "x" then_one_added = 1
  ∧ outstanding "x" then_one_added = 2%Z.
Proof.
  repeat split; try (vm_compute; reflexivity).
  vm_compute. apply list_elem_of_In. simpl. auto.
Qed.

(** C2 (defect in [removeExtensionListener]).  Removing a callback that
    is not registered for a name that has other callbacks is not a no-op
    on the registry: no message is sent, but the entry of the name is
    deleted with all its callbacks, so none of them is reported as
    registered afterwards. *)
Theorem remove_unregistered_drops_entry ext name cb b l :
  listenerMap b !! name = Some l → l ≠ [] → cb ∉ l →
  sent (removeExtensionListener ext name cb b) = sent b
  ∧ listenerMap (removeExtensionListener ext name cb b) = delete name (listenerMap b)
  ∧ listenerMap (removeExtensionListener ext name cb b) ≠ listenerMap b
  ∧ ∀ f, hasExtensionListener ext name f (removeExtensionListener ext name cb b) = false.
Proof.
  intros Hsome Hne Hnot.
  assert (Hdel := remove_deletes_entry ext name cb b).
  split; [|split; [exact Hdel|split]].
  - unfold removeExtensionListener, ipc_removeListener. rewrite Hsome.
    rewrite (findIndex_absent _ _ Hnot). simpl.
    destruct (decide (length l = 0)) as [Hlen|_].
    + destruct l; [congruence|discriminate].
    + destruct (ipc_listeners _ !! _); reflexivity.
  - rewrite Hdel. intros Heq.
    assert (delete name (listenerMap b) !! name = Some l) as Hbad
      by (rewrite Heq; exact Hsome).
    rewrite lookup_delete_eq in Hbad. discriminate.
  - intros f. unfold hasExtensionListener. rewrite Hdel, lookup_delete_eq. reflexivity.
Qed.

(** The registry holds A for [x]; removing B, which is not registered,
    sends nothing and makes the registry forget A. *)
Lemma remove_unregistered_drops_entry_witness :
  listenerMap one_added !! "x" = Some [cbA]
  ∧ hasExtensionListener "ext" "x" cbA one_added = true
  ∧ sent (removeExtensionListener "ext" "x" cbB one_added) = sent one_added
  ∧ hasExtensionListener "ext" "x" cbA
      (removeExtensionListener "ext" "x" cbB one_added) = false.
Proof.
  assert (Hsome : listenerMap one_added !! "x" = Some [cbA]) by (vm_compute; reflexivity).
  assert (Hne : [cbA] ≠ []) by discriminate.
  assert (Hnot : cbB ∉ [cbA]).
  { intros Hin. apply list_elem_of_In in Hin. simpl in Hin.
    destruct Hin as [Heq|[]]. discriminate. }
  destruct (remove_unregistered_drops_entry "ext" "x" cbB one_added [cbA] Hsome Hne Hnot)
    as (Hsent & _ & _ & Hhas).
  split; [exact Hsome|]. split; [vm_compute; reflexivity|].
  split; [exact Hsent|exact (Hhas cbA)].
Defined.

(** C3 (defect in [removeExtensionListener]).  A callback that was added
    and then removed with the same reference is still run by a later
    dispatch of the name: line 19 attaches a new closure around the
    callback, line 42 detaches the callback itself, which was never
    attached, so the closure stays.  The registry no longer reports the
    callback as registered. *)
Theorem removed_callback_still_dispatched ext name cb b :
  hasExtensionListener ext name cb
    (removeExtensionListener ext name cb (addExtensionListener ext name cb b)) = false
  ∧ invoked cb ⊆
      dispatch name (removeExtensionListener ext name cb (addExtensionListener ext name cb b)).
Proof.
  split.
  - unfold hasExtensionListener. rewrite remove_deletes_entry, lookup_delete_eq.
    reflexivity.
  - set (b1 := addExtensionListener ext name cb b).
    assert (∃ l s, ipc_listeners b1 !! formatIpcName name
                   = Some (l ++ [IpcWrapper s name cb])) as (l & s & Hipc).
    { subst b1. unfold addExtensionListener.
      destruct (listenerMap b !! name); simpl;
        eexists _, _; apply lookup_insert_eq. }
    assert (ipc_get (formatIpcName name) (removeExtensionListener ext name cb b1)
            = remove_last cb l ++ [IpcWrapper s name cb]) as Hget.
    { unfold removeExtensionListener.
      set (b2 := match listenerMap b1 !! name with Some _ => _ | None => _ end).
      assert (ipc_listeners b2 = ipc_listeners b1) as Hsame.
      { subst b2. destruct (listenerMap b1 !! name); [|reflexivity].
        match goal with |- context [decide ?P] => destruct (decide P) end; reflexivity. }
      unfold ipc_removeListener, ipc_get. rewrite Hsame, Hipc. simpl.
      rewrite lookup_insert_eq. simpl.
      apply remove_last_snoc, wrapper_is_not_callback. }
    unfold dispatch. rewrite Hget.
    intros f Hf. apply list_elem_of_In, in_flat_map.
    exists (IpcWrapper s name cb). split.
    + apply in_or_app. right. simpl. auto.
    + simpl. apply list_elem_of_In. exact Hf.
Qed.

(** ... for instance with A on the empty registry. *)
Example removed_cbA_still_runs :
  dispatch "x" (run [Add "ext" "x" cbA; Remove "ext" "x" cbA] empty_bridge) = [cbA]
  ∧ sent (run [Add "ext" "x" cbA; Remove "ext" "x" cbA] empty_bridge)
    = [Send "crx-add-listener" "ext" "x"; Send "crx-remove-listener" "ext" "x"].
Proof. split; vm_compute; reflexivity. Qed.

End EventBridgeClaims.

(** * Properties of extension discovery *)

Section LoaderFacts.
Import Loader Scenario.

Lemma promise_all_resolved {A B} (f : A → result B) (g : A → B) (l : list A) :
  (∀ a, a ∈ l → f a = Ok (g a)) → promise_all (map f l) = Ok (map g l).
Proof.
  induction l as [|a l IH]; intros Hall; simpl; [reflexivity|].
  rewrite (Hall a) by (left). simpl.
  rewrite IH by (intros x Hx; apply Hall; right; exact Hx). reflexivity.
Qed.

Lemma promise_all_rejects {A} (l : list (result A)) e :
  Throw e ∈ l → ∃ e', promise_all l = Throw e'.
Proof.
  induction l as [|r l IH]; intros Hin; [inversion Hin|].
  destruct r as [a|e1]; simpl; [|eauto].
  apply elem_of_cons in Hin as [Heq|Hin]; [discriminate|].
  destruct (IH Hin) as [e' ->]. simpl. eauto.
Qed.

Lemma omap_id_map {A B} (g : A → option B) (l : list A) :
  omap id (map g l) = omap g l.
Proof.
  induction l as [|a l IH]; [reflexivity|].
  cbn. rewrite IH. reflexivity.
Qed.

(** [find] returns the first entry, in directory order, that passes. *)
Lemma find_first {A} (p : A → bool) (l : list A) (x : A) :
  find p l = Some x →
  ∃ before after, l = before ++ x :: after ∧ p x = true
                  ∧ ∀ y, y ∈ before → p y = false.
Proof.
  induction l as [|a l IH]; simpl; [discriminate|].
  destruct (p a) eqn:Hpa.
  - intros [= <-]. exists [], l. repeat split; [exact Hpa|].
    intros y Hy. inversion Hy.
  - intros Hfind. destruct (IH Hfind) as (before & after & -> & Hpx & Hbefore).
    exists (a :: before), after. repeat split; [exact Hpx|].
    intros y Hy. apply elem_of_cons in Hy as [->|Hy]; [exact Hpa|auto].
Qed.

(** The scan as a whole: when every candidate's promise resolves, the
    load list holds the candidates' contributions in directory order. *)
Lemma scan_collects root extensionsPath subDirectories
    (contribution : Dirent → option Path) :
  readdir root extensionsPath = Ok subDirectories →
  (∀ d, d ∈ subDirectories → isDirectory d = true →
        candidate root extensionsPath d = Ok (contribution d)) →
  extensionDirectories root extensionsPath
  = Ok (omap contribution (filter (λ d, isDirectory d = true) subDirectories)).
Proof.
  intros Hread Hall. unfold extensionDirectories. rewrite Hread. simpl.
  rewrite (promise_all_resolved _ contribution).
  - simpl. rewrite omap_id_map. reflexivity.
  - intros d Hd. apply list_elem_of_filter in Hd as [Hdir Hin]. auto.
Qed.

(** A candidate with neither a manifest nor a version directory: line 54
    joins the path with [undefined], which throws, and the promise
    rejects. *)
Lemma candidate_without_version_dir root extensionsPath dirEnt extSubDirs :
  manifestExists root (Some (extensionsPath ++ [name dirEnt])) = false →
  readdir root (extensionsPath ++ [name dirEnt]) = Ok extSubDirs →
  versionDir extSubDirs = None →
  candidate root extensionsPath dirEnt = Throw (TypeError "ERR_INVALID_ARG_TYPE").
Proof.
  intros Hman Hread Hnone. unfold candidate. rewrite Hman, Hread.
  cbn [and_then]. rewrite Hnone. reflexivity.
Qed.

(** A rejected candidate rejects the whole scan. *)
Lemma scan_rejects root extensionsPath subDirectories dirEnt e :
  readdir root extensionsPath = Ok subDirectories →
  dirEnt ∈ subDirectories → isDirectory dirEnt = true →
  candidate root extensionsPath dirEnt = Throw e →
  ∃ e', extensionDirectories root extensionsPath = Throw e'.
Proof.
  intros Hread Hin Hdir Hthrow. unfold extensionDirectories. rewrite Hread.
  cbn [and_then].
  destruct (promise_all_rejects
              (map (candidate root extensionsPath)
                   (filter (λ d, isDirectory d = true) subDirectories)) e) as [e' ->].
  - rewrite <- Hthrow. apply list_elem_of_fmap_2, list_elem_of_filter. auto.
  - simpl. eauto.
Qed.

(** On [disk_plain_dir] nothing is loaded,
    not even the candidate [a], which has a manifest. *)
Example scan_rejects_on_plain_directory :
  candidate disk_plain_dir ["extensions"] (MkDirent "a" true) = Ok (Some ["extensions"; "a"])
  ∧ extensionDirectories disk_plain_dir ["extensions"]
    = Throw (TypeError "ERR_INVALID_ARG_TYPE")
  ∧ loadExtensions (λ p, Ok p) disk_plain_dir ["extensions"]
    = Throw (TypeError "ERR_INVALID_ARG_TYPE").
Proof. repeat split; vm_compute; reflexivity. Qed.

Example VERSION_REGEX_examples :
  map (matches VERSION_REGEX)
      ["2024.9.29.1273_0"; "1.0_0"; "12_0"; "1.2.3"; "1_0"; "1.2.3.4.5_0"; "1.2_"; "a.b_0"]
  = [true; true; true; false; false; false; false; false].
Proof. vm_compute. reflexivity. Qed.

(** C6, counterexample.  The candidate [c] contains the directory
    [1.2.3], a numeric dot-separated version without build suffix, with a
    manifest in it, and [c] has no manifest of its own; still [c]
    contributes nothing, because [VERSION_REGEX] requires the suffix and
    the first directory it accepts, [9.9_0], has no manifest. *)
Lemma unsuffixed_version_directory_ignored :
  manifestExists disk_unsuffixed (Some ["extensions"; "c"]) = false
  ∧ matches spec_version_name "1.2.3" = true
  ∧ manifestExists disk_unsuffixed (Some ["extensions"; "c"; "1.2.3"]) = true
  ∧ candidate disk_unsuffixed ["extensions"] (MkDirent "c" true) = Ok None
  ∧ extensionDirectories disk_unsuffixed ["extensions"]
    = Ok [["extensions"; "a"]; ["extensions"; "b"; "2024.9.29.1273_0"]].
Proof. repeat split; vm_compute; reflexivity. Qed.

(** C6, as amended.  A candidate directory that directly contains a
    manifest contributes its own path.  Otherwise, when it has a
    subdirectory whose name matches [VERSION_REGEX] (two to four groups
    of digits, each optionally followed by a dot, then an underscore and
    a build number, both required), the first such subdirectory in
    directory order decides: the candidate contributes that
    subdirectory's path when it contains a manifest, and nothing when it
    does not, in which case the scan of the other candidates goes on. *)
Theorem candidate_contribution root extensionsPath dirEnt :
  (manifestExists root (Some (extensionsPath ++ [name dirEnt])) = true →
   candidate root extensionsPath dirEnt = Ok (Some (extensionsPath ++ [name dirEnt])))
  ∧ (∀ extSubDirs v,
       manifestExists root (Some (extensionsPath ++ [name dirEnt])) = false →
       readdir root (extensionsPath ++ [name dirEnt]) = Ok extSubDirs →
       versionDir extSubDirs = Some v →
       (∃ before dir after,
          extSubDirs = before ++ dir :: after ∧ name dir = v
          ∧ isDirectory dir = true ∧ matches VERSION_REGEX v = true
          ∧ ∀ e, e ∈ before →
                 isDirectory e && matches VERSION_REGEX (name e) = false)
       ∧ candidate root extensionsPath dirEnt
         = Ok (if manifestExists root (Some ((extensionsPath ++ [name dirEnt]) ++ [v]))
               then Some ((extensionsPath ++ [name dirEnt]) ++ [v]) else None))
  ∧ (∀ subDirectories contribution,
       readdir root extensionsPath = Ok subDirectories →
       (∀ d, d ∈ subDirectories → isDirectory d = true →
             candidate root extensionsPath d = Ok (contribution d)) →
       extensionDirectories root extensionsPath
       = Ok (omap contribution (filter (λ d, isDirectory d = true) subDirectories))).
Proof.
  split; [|split].
  - intros Hman. unfold candidate. rewrite Hman. reflexivity.
  - intros extSubDirs v Hman Hread Hv. split.
    + unfold versionDir in Hv.
      destruct (find _ extSubDirs) as [dir|] eqn:Hfind; [|discriminate].
      injection Hv as Hv.
      destruct (find_first _ _ _ Hfind) as (before & after & -> & Hp & Hbefore).
      apply andb_prop in Hp as [Hdir Hmatch].
      exists before, dir, after. subst v. repeat split; assumption.
    + unfold candidate. rewrite Hman, Hread. cbn [and_then]. rewrite Hv.
      cbn [and_then path_join].
      clear Hman. destruct (manifestExists root _); reflexivity.
  - intros subDirectories contribution. apply scan_collects.
Qed.

(** On [disk_unsuffixed]: [a] has a manifest, [b] has one in its version
    directory, and the first version directory of [c] has none. *)
Lemma candidate_contribution_witness :
  candidate disk_unsuffixed ["extensions"] (MkDirent "a" true)
  = Ok (Some ["extensions"; "a"])
  ∧ candidate disk_unsuffixed ["extensions"] (MkDirent "b" true)
    = Ok (Some ["extensions"; "b"; "2024.9.29.1273_0"])
  ∧ candidate disk_unsuffixed ["extensions"] (MkDirent "c" true) = Ok None.
Proof.
  split; [|split].
  - apply (candidate_contribution disk_unsuffixed ["extensions"] (MkDirent "a" true)).
    vm_compute. reflexivity.
  - assert (manifestExists disk_unsuffixed (Some (["extensions"] ++ ["b"])) = false)
      as Hman by (vm_compute; reflexivity).
    assert (readdir disk_unsuffixed (["extensions"] ++ ["b"])
            = Ok [MkDirent "2024.9.29.1273_0" true]) as Hread by (vm_compute; reflexivity).
    assert (versionDir [MkDirent "2024.9.29.1273_0" true] = Some "2024.9.29.1273_0")
      as Hv by (vm_compute; reflexivity).
    exact (proj2 (proj1 (proj2 (candidate_contribution disk_unsuffixed ["extensions"]
                                  (MkDirent "b" true))) _ _ Hman Hread Hv)).
  - assert (manifestExists disk_unsuffixed (Some (["extensions"] ++ ["c"])) = false)
      as Hman by (vm_compute; reflexivity).
    assert (readdir disk_unsuffixed (["extensions"] ++ ["c"])
            = Ok [MkDirent "1.2.3" true; MkDirent "9.9_0" true])
      as Hread by (vm_compute; reflexivity).
    assert (versionDir [MkDirent "1.2.3" true; MkDirent "9.9_0" true] = Some "9.9_0")
      as Hv by (vm_compute; reflexivity).
    exact (proj2 (proj1 (proj2 (candidate_contribution disk_unsuffixed ["extensions"]
                                  (MkDirent "c" true))) _ _ Hman Hread Hv)).
Defined.

(** [readdir] of a path that goes through a regular file, of a regular
    file, and of a name that does not exist. *)
Example readdir_errors :
  readdir disk_plain_dir ["extensions"; "a"; "manifest.json"; "x"] = Throw ENOTDIR
  ∧ readdir disk_plain_dir ["extensions"; "a"; "manifest.json"] = Throw ENOTDIR
  ∧ readdir disk_plain_dir ["extensions"; "z"] = Throw ENOENT.
Proof. repeat split; reflexivity. Qed.

End LoaderFacts.

(** * Properties of the controller *)

Section ShellFacts.
Import Shell Scenario.

Implicit Types (st : Browser) (w win : TabbedBrowserWindow) (details : Details).

Lemma fmap_insert_same {A B} (f : A → B) (l : list A) (i : nat) (x y : A) :
  l !! i = Some x → f y = f x → f <$> <[i := y]> l = f <$> l.
Proof.
  intros Hx Hf. rewrite list_fmap_insert, Hf.
  apply list_insert_id. rewrite list_lookup_fmap, Hx. reflexivity.
Qed.


Lemma find_window_resolved windowId st i w :
  find_window windowId st = Some (i, w) →
  windowId = JNum (id w) ∧ windows st !! i = Some w.
Proof.
  unfold find_window. destruct windowId; try discriminate.
  intros Hfind. apply list_find_Some in Hfind as (Hi & Hid & _).
  subst. split; [reflexivity|exact Hi].
Qed.

Lemma find_window_unresolved windowId st :
  (∀ w, w ∈ windows st → windowId ≠ JNum (id w)) → find_window windowId st = None.
Proof.
  intros Hnone. unfold find_window. destruct windowId; try reflexivity.
  apply list_find_None, Forall_forall. intros w Hw Hid.
  apply (Hnone w Hw). rewrite Hid. reflexivity.
Qed.

Lemma find_window_tracked st i w :
  windows st !! i = Some w → is_Some (find_window (JNum (id w)) st).
Proof.
  intros Hw. unfold find_window.
  destruct (list_find _ (windows st)) as [r|] eqn:Hfind; [eauto|].
  apply list_find_None in Hfind. rewrite Forall_forall in Hfind.
  exfalso. apply (Hfind w); [|reflexivity].
  apply list_elem_of_lookup. eauto.
Qed.

(** Without a resolved window [createTab] throws at line 198, before it
    changes anything. *)
Lemma createTab_unresolved details st :
  find_window (windowId details) st = None →
  createTab details st = (Throw (UnableToFindWindowId (windowId details)), st).
Proof. intros Hnone. unfold createTab. rewrite Hnone. reflexivity. Qed.

(** The identifier [newTabUrl] is declared in [createInitialWindow]
    only: it resolves there, and not in the provider's closures. *)
Lemma newTabUrl_scope u :
  resolve_identifier "newTabUrl" (createInitialWindow_scope u) = Ok u
  ∧ resolve_identifier "newTabUrl" provider_scope = Throw (ReferenceError "newTabUrl").
Proof. split; reflexivity. Qed.

(** ** What the operations do to [windows]

    No operation removes an element of [windows]: line 286 pushes, and
    everything else mutates a window object in place. *)

Lemma window_ids_Tab_loadURL t u st :
  window_ids (Tab_loadURL t u st) = window_ids st.
Proof. reflexivity. Qed.

Lemma window_ids_Tabs_create i w st :
  windows st !! i = Some w →
  window_ids (snd (Tabs_create i w st)) = window_ids st.
Proof.
  intros Hw. unfold Tabs_create, onTabCreated. cbn [snd initialUrl set_tabs].
  destruct (url_truthy (initialUrl w)); rewrite ?window_ids_Tab_loadURL;
    unfold window_ids; cbn; apply (fmap_insert_same id _ _ w); done.
Qed.

Lemma window_ids_Tabs_select i w tabId st :
  windows st !! i = Some w →
  window_ids (Tabs_select i w tabId st) = window_ids st.
Proof.
  intros Hw. unfold Tabs_select. destruct (find _ _); [|reflexivity].
  unfold window_ids. cbn. apply (fmap_insert_same id _ _ w); done.
Qed.

Lemma window_ids_win_tabs_select i tabId st :
  window_ids (win_tabs_select i tabId st) = window_ids st.
Proof.
  unfold win_tabs_select, window_at.
  destruct (windows st !! i) as [w|] eqn:Hw; [|reflexivity].
  apply window_ids_Tabs_select. exact Hw.
Qed.

Lemma window_ids_destroy i st :
  window_ids (TabbedBrowserWindow_destroy i st) = window_ids st.
Proof.
  unfold TabbedBrowserWindow_destroy, window_at.
  destruct (windows st !! i) as [w|] eqn:Hw; [|reflexivity].
  unfold window_ids. cbn. apply (fmap_insert_same id _ _ w); done.
Qed.

Lemma window_ids_createWindow u st :
  ∃ more, window_ids (snd (createWindow u st)) = window_ids st ++ more.
Proof.
  unfold createWindow, TabbedBrowserWindow_new, BrowserWindow_new.
  cbn. destruct (webuiExtensionId st); cbn.
  - eexists. unfold window_ids. cbn. rewrite fmap_app. reflexivity.
  - exists []. rewrite app_nil_r. reflexivity.
Qed.

Lemma window_ids_createTab details st :
  window_ids (snd (createTab details st)) = window_ids st.
Proof.
  unfold createTab.
  destruct (find_window (windowId details) st) as [[i w]|] eqn:Hfind; [|reflexivity].
  apply find_window_resolved in Hfind as [_ Hw].
  pose proof (window_ids_Tabs_create i w st Hw) as Hcreate.
  destruct (Tabs_create i w st) as [[t tab] st1]. cbn [snd] in Hcreate.
  destruct (truthy (url details)).
  - destruct (url_or_newTabUrl (url details)) as [u|e]; [|exact Hcreate].
    destruct (activation (active details)); cbn [snd];
      rewrite ?window_ids_win_tabs_select, ?window_ids_Tab_loadURL; exact Hcreate.
  - destruct (activation (active details)); cbn [snd];
      rewrite ?window_ids_win_tabs_select; exact Hcreate.
Qed.

Lemma window_ids_removeWindow h st :
  window_ids (removeWindow h st) = window_ids st.
Proof.
  unfold removeWindow.
  destruct (getWindowFromBrowserWindow h st) as [[i w]|]; [|reflexivity].
  apply window_ids_destroy.
Qed.

Lemma window_ids_exec c st :
  ∃ more, window_ids (exec st c) = window_ids st ++ more.
Proof.
  destruct c as [| |details|details|h]; cbn [exec].
  - unfold createInitialWindow. destruct (newTabUrl_of st).
    + apply window_ids_createWindow.
    + exists []. rewrite app_nil_r. reflexivity.
  - exists []. rewrite app_nil_r. unfold run_microtask.
    destruct (microtasks st) as [|i q]; [reflexivity|].
    unfold win_tabs_create, window_at.
    destruct (windows (set_microtasks q st) !! i) as [w|] eqn:Hw; [|reflexivity].
    pose proof (window_ids_Tabs_create i w _ Hw) as Hcreate.
    destruct (Tabs_create i w (set_microtasks q st)) as [r st1]. exact Hcreate.
  - exists []. rewrite app_nil_r. apply window_ids_createTab.
  - unfold provider_createWindow.
    destruct (url_or_newTabUrl (url details)) as [u|e].
    + destruct (window_ids_createWindow u st) as [more Hmore].
      exists more. destruct (createWindow u st) as [[win|e] st1]; exact Hmore.
    + exists []. rewrite app_nil_r. reflexivity.
  - exists []. rewrite app_nil_r. apply window_ids_removeWindow.
Qed.

(** Whatever happens later, a window that was tracked stays tracked. *)
Lemma windows_only_grow cs st :
  ∃ more, window_ids (exec_all cs st) = window_ids st ++ more.
Proof.
  revert st. induction cs as [|c cs IH]; intros st; cbn.
  - exists []. rewrite app_nil_r. reflexivity.
  - destruct (window_ids_exec c st) as [m1 H1].
    destruct (IH (exec st c)) as [m2 H2].
    exists (m1 ++ m2). unfold exec_all in H2. rewrite H2, H1, app_assoc. reflexivity.
Qed.


(** ** [ids_fresh] is an invariant *)

Lemma ids_fresh_intro st st' :
  tab_id <$> tab_objects st' = tab_id <$> tab_objects st →
  (next_id st ≤ next_id st')%Z →
  ids_fresh st → ids_fresh st'.
Proof.
  intros Hids Hnext Hfresh o Ho.
  assert (tab_id o ∈ tab_id <$> tab_objects st) as Hin
    by (rewrite <- Hids; apply list_elem_of_fmap_2; exact Ho).
  apply list_elem_of_fmap in Hin as (o' & -> & Ho').
  specialize (Hfresh o' Ho'). lia.
Qed.

Lemma tab_ids_Tab_loadURL t u st :
  tab_id <$> tab_objects (Tab_loadURL t u st) = tab_id <$> tab_objects st.
Proof.
  unfold Tab_loadURL. cbn.
  rewrite (list_fmap_alter _ _ (λ x, x)) by (apply Forall_forall; reflexivity).
  apply list_alter_id. reflexivity.
Qed.

Lemma ids_fresh_Tab_loadURL t u st : ids_fresh st → ids_fresh (Tab_loadURL t u st).
Proof. apply ids_fresh_intro; [apply tab_ids_Tab_loadURL|reflexivity]. Qed.

Lemma ids_fresh_Tabs_create i w st :
  ids_fresh st → ids_fresh (snd (Tabs_create i w st)).
Proof.
  intros Hfresh. unfold Tabs_create, onTabCreated. cbn [snd initialUrl set_tabs].
  match goal with
  | |- ids_fresh (if _ then Tab_loadURL _ _ ?s else _) =>
      assert (ids_fresh s) as Hs
  end.
  { intros o Ho. cbn in Ho. cbn [next_id set_windows set_next_id].
    apply elem_of_app in Ho as [Ho|Ho].
    - specialize (Hfresh o Ho). lia.
    - apply list_elem_of_singleton in Ho as ->. cbn. lia. }
  destruct (url_truthy (initialUrl w)); [apply ids_fresh_Tab_loadURL|]; exact Hs.
Qed.

Lemma ids_fresh_win_tabs_select i tabId st :
  ids_fresh st → ids_fresh (win_tabs_select i tabId st).
Proof.
  unfold win_tabs_select, Tabs_select.
  destruct (window_at i st) as [w|]; [|done].
  destruct (find _ _); done.
Qed.

Lemma ids_fresh_createWindow u st : ids_fresh st → ids_fresh (snd (createWindow u st)).
Proof.
  unfold createWindow, TabbedBrowserWindow_new, BrowserWindow_new. cbn.
  destruct (webuiExtensionId st); cbn;
    (apply ids_fresh_intro; [reflexivity|cbn; lia]).
Qed.

Lemma ids_fresh_createTab details st :
  ids_fresh st → ids_fresh (snd (createTab details st)).
Proof.
  intros Hfresh. unfold createTab.
  destruct (find_window (windowId details) st) as [[i w]|]; [|exact Hfresh].
  pose proof (ids_fresh_Tabs_create i w st Hfresh) as Hcreate.
  destruct (Tabs_create i w st) as [[t tab] st1]. cbn [snd] in Hcreate.
  destruct (truthy (url details)).
  - destruct (url_or_newTabUrl (url details)) as [u|e]; [|exact Hcreate].
    destruct (activation (active details)); cbn [snd];
      [apply ids_fresh_win_tabs_select|]; apply ids_fresh_Tab_loadURL, Hcreate.
  - destruct (activation (active details)); cbn [snd];
      [apply ids_fresh_win_tabs_select|]; exact Hcreate.
Qed.

Lemma ids_fresh_exec c st : ids_fresh st → ids_fresh (exec st c).
Proof.
  intros Hfresh. destruct c as [| |details|details|h]; cbn [exec].
  - unfold createInitialWindow. destruct (newTabUrl_of st); [|exact Hfresh].
    apply ids_fresh_createWindow, Hfresh.
  - unfold run_microtask. destruct (microtasks st) as [|i q]; [exact Hfresh|].
    unfold win_tabs_create. destruct (window_at i _) as [w|]; [|exact Hfresh].
    pose proof (ids_fresh_Tabs_create i w (set_microtasks q st) Hfresh) as Hcreate.
    destruct (Tabs_create i w (set_microtasks q st)) as [r st1]. exact Hcreate.
  - apply ids_fresh_createTab, Hfresh.
  - unfold provider_createWindow.
    destruct (url_or_newTabUrl (url details)) as [u|e]; [|exact Hfresh].
    pose proof (ids_fresh_createWindow u st Hfresh) as Hcreate.
    destruct (createWindow u st) as [[win|e] st1]; exact Hcreate.
  - unfold removeWindow.
    destruct (getWindowFromBrowserWindow h st) as [[i w]|]; [|exact Hfresh].
    unfold TabbedBrowserWindow_destroy. destruct (window_at i st); exact Hfresh.
Qed.

Lemma ids_fresh_exec_all cs st : ids_fresh st → ids_fresh (exec_all cs st).
Proof.
  revert st. induction cs as [|c cs IH]; intros st Hfresh; [exact Hfresh|].
  apply IH, ids_fresh_exec, Hfresh.
Qed.

Lemma ids_fresh_ready : ids_fresh ready.
Proof.
  apply (ids_fresh_exec_all [DoCreateInitialWindow; DoMicrotask]
           (MkBrowser [] [] [] None (Some "webui") 1 [])).
  intros o Ho. inversion Ho.
Qed.

End ShellFacts.

Section ShellClaims.
Import Shell Scenario.

Implicit Types (st : Browser) (w win : TabbedBrowserWindow) (details : Details).

(** With a URL the provider's [createWindow] tracks a new window that
    will navigate its tabs to that URL, and returns its handle. *)
Lemma provider_createWindow_with_url details st extId :
  truthy (url details) = true →
  webuiExtensionId st = Some extId →
  ∃ win st',
    provider_createWindow details st = (Ok (window win), st')
    ∧ windows st' = windows st ++ [win]
    ∧ initialUrl win = Given (url details)
    ∧ window win = length (electron st).
Proof.
  intros Hu Hext. unfold provider_createWindow, url_or_newTabUrl. rewrite Hu.
  unfold createWindow, TabbedBrowserWindow_new, BrowserWindow_new. cbn.
  rewrite Hext. cbn.
  exists (MkWindow (next_id st) (length (electron st)) (next_id st + 1)
                   (MkTabs (length (electron st)) [] None) (Given (url details))).
  eexists. repeat split.
Qed.

(** C4 (defect in the provider's [createWindow]).  Without a URL the
    call throws a [ReferenceError] and creates no window: line 219 falls
    back to [newTabUrl], which is declared inside [createInitialWindow]
    (line 296) and is not in scope in [init], where the provider's
    closures are written. *)
Theorem provider_createWindow_without_url details st :
  truthy (url details) = false →
  provider_createWindow details st = (Throw (ReferenceError "newTabUrl"), st).
Proof.
  intros Hu. unfold provider_createWindow, url_or_newTabUrl. rewrite Hu.
  reflexivity.
Qed.

(** [createWindow({})] on the running controller. *)
Lemma provider_createWindow_without_url_witness :
  truthy JUndefined = false
  ∧ provider_createWindow (MkDetails JUndefined JUndefined JUndefined) ready
    = (Throw (ReferenceError "newTabUrl"), ready).
Proof.
  split; [reflexivity|].
  apply (provider_createWindow_without_url (MkDetails JUndefined JUndefined JUndefined)).
  reflexivity.
Defined.

(** C5, counterexample.  The only window is tracked and live; after
    [removeWindow] its [BrowserWindow] is destroyed and [windows] still
    contains it, where the lookup by identifier finds it. *)
Lemma destroyed_window_still_tracked :
  is_Some (getWindowFromBrowserWindow 0 ready)
  ∧ window_ids ready = [1%Z]
  ∧ isDestroyed 0 (removeWindow 0 ready) = true
  ∧ window_ids (removeWindow 0 ready) = [1%Z]
  ∧ is_Some (find_window (JNum 1) (removeWindow 0 ready)).
Proof. repeat split; vm_compute; eauto. Qed.

(** C5, as amended.  A destroyed window is not removed from [windows]:
    [removeWindow] destroys the tabs and the presentation surface of the
    window it resolves and leaves [windows] with the same windows, where
    the destroyed one stays whatever happens later.  What keeps a lookup
    by presentation surface from returning it is the [isDestroyed] guard
    of [getWindowFromBrowserWindow]; the lookup by identifier still
    finds it. *)
Theorem removeWindow_keeps_window_tracked st h i w :
  getWindowFromBrowserWindow h st = Some (i, w) →
  window_ids (removeWindow h st) = window_ids st
  ∧ isDestroyed (window w) (removeWindow h st) = true
  ∧ getWindowFromBrowserWindow (window w) (removeWindow h st) = None
  ∧ is_Some (find_window (JNum (id w)) (removeWindow h st))
  ∧ ∀ cs, id w ∈ window_ids (exec_all cs (removeWindow h st)).
Proof.
  intros Hres.
  assert (windows st !! i = Some w) as Hw.
  { unfold getWindowFromBrowserWindow in Hres.
    destruct (electron st !! h) as [o|]; [|discriminate].
    destruct (bw_destroyed o); [discriminate|].
    apply list_find_Some in Hres as (Hi & _). exact Hi. }
  assert (i < length (windows st)) as Hlt by (eapply lookup_lt_Some; eauto).
  assert (Hids := window_ids_removeWindow h st).
  assert (id w ∈ window_ids st) as Hin.
  { apply list_elem_of_fmap_2, list_elem_of_lookup. eauto. }
  assert (electron (removeWindow h st) !! window w
          = (λ o, MkBrowserWindow (bw_id o) (bw_webContents o) true false (bw_loads o))
              <$> electron st !! window w) as Hel.
  { unfold removeWindow. rewrite Hres.
    unfold TabbedBrowserWindow_destroy, window_at. rewrite Hw.
    cbn. apply list_lookup_alter_eq. }
  split; [exact Hids|]. split; [|split; [|split]].
  - unfold isDestroyed. rewrite Hel. destruct (electron st !! window w); reflexivity.
  - unfold getWindowFromBrowserWindow. rewrite Hel.
    destruct (electron st !! window w); reflexivity.
  - assert (∃ w', windows (removeWindow h st) !! i = Some w' ∧ id w' = id w)
      as (w' & Hw' & <-).
    { unfold removeWindow. rewrite Hres.
      unfold TabbedBrowserWindow_destroy, window_at. rewrite Hw. cbn.
      eexists. split; [apply list_lookup_insert_eq; exact Hlt|reflexivity]. }
    eapply find_window_tracked. exact Hw'.
  - intros cs. destruct (windows_only_grow cs (removeWindow h st)) as [more ->].
    apply elem_of_app. left. rewrite Hids. exact Hin.
Qed.

(** Removing the only window of the running controller. *)
Lemma removeWindow_keeps_window_tracked_witness :
  window_ids (removeWindow 0 ready) = window_ids ready
  ∧ isDestroyed 0 (removeWindow 0 ready) = true
  ∧ getWindowFromBrowserWindow 0 (removeWindow 0 ready) = None.
Proof.
  assert (∃ w, getWindowFromBrowserWindow 0 ready = Some (0, w) ∧ window w = 0)
    as (w & Hres & Hwin) by (eexists; split; vm_compute; reflexivity).
  destruct (removeWindow_keeps_window_tracked ready 0 0 w Hres)
    as (Hids & Hdestroyed & Hguard & _).
  rewrite Hwin in Hdestroyed, Hguard. auto.
Defined.

(** C7, counterexample.  The identifier 1 belongs to a tracked window
    whose presentation surface is destroyed, so it does not resolve to a
    live window; [createTab] finds the window in [windows] all the same,
    so the check of line 197 passes and the window-not-found error is
    not thrown; the call goes on to create a tab. *)
Lemma createTab_in_destroyed_window :
  (window <$> windows window_removed) = [0]
  ∧ isDestroyed 0 window_removed = true
  ∧ is_Some (find_window (JNum 1) window_removed)
  ∧ fst (createTab (MkDetails (JNum 1) (JStr "https://example.test") JUndefined)
                   window_removed) ≠ Throw (UnableToFindWindowId (JNum 1))
  ∧ snd (createTab (MkDetails (JNum 1) (JStr "https://example.test") JUndefined)
                   window_removed) ≠ window_removed.
Proof.
  split; [reflexivity|]. split; [reflexivity|]. split; [vm_compute; eauto|].
  split; vm_compute; discriminate.
Qed.

(** C7, as amended.  When [details.windowId] is not the identifier of a
    window in [windows] (live or destroyed), [createTab] throws the
    window-not-found error and leaves the state as it was: no tab is
    created in any window. *)
Theorem createTab_unknown_window details st :
  (∀ w, w ∈ windows st → windowId details ≠ JNum (id w)) →
  createTab details st = (Throw (UnableToFindWindowId (windowId details)), st).
Proof.
  intros Hnone. apply createTab_unresolved, find_window_unresolved, Hnone.
Qed.

(** No window of the running controller has the identifier 7. *)
Lemma createTab_unknown_window_witness :
  createTab (MkDetails (JNum 7) (JStr "https://example.test") JUndefined) ready
  = (Throw (UnableToFindWindowId (JNum 7)), ready).
Proof.
  apply (createTab_unknown_window
           (MkDetails (JNum 7) (JStr "https://example.test") JUndefined) ready).
  intros w Hw. vm_compute in Hw. apply list_elem_of_In in Hw.
  destruct Hw as [<-|[]]. discriminate.
Defined.

(** C10.  When [details] carries no [windowId], or one that is not a
    number, [createTab] throws the window-not-found error; no default
    window is chosen and nothing changes. *)
Theorem createTab_without_window_id details st :
  (∀ n, windowId details ≠ JNum n) →
  createTab details st = (Throw (UnableToFindWindowId (windowId details)), st).
Proof.
  intros Hnot. apply createTab_unresolved. unfold find_window.
  destruct (windowId details) as [| | |n| |]; try reflexivity.
  exfalso. exact (Hnot n eq_refl).
Qed.

(** No [windowId], and a [windowId] that is the string ["1"]. *)
Lemma createTab_without_window_id_witness :
  createTab (MkDetails JUndefined (JStr "https://example.test") JUndefined) ready
  = (Throw (UnableToFindWindowId JUndefined), ready)
  ∧ createTab (MkDetails (JStr "1") (JStr "https://example.test") JUndefined) ready
    = (Throw (UnableToFindWindowId (JStr "1")), ready).
Proof.
  split.
  - apply (createTab_without_window_id
             (MkDetails JUndefined (JStr "https://example.test") JUndefined) ready).
    intros n. discriminate.
  - apply (createTab_without_window_id
             (MkDetails (JStr "1") (JStr "https://example.test") JUndefined) ready).
    intros n. discriminate.
Defined.

(** The controller's own [getFocusedWindow] falls back to the first
    window when no tracked window has the focus. *)
Lemma getFocusedWindow_fallback st :
  Forall (λ w, isFocused (window w) st = Ok false) (windows st) →
  getFocusedWindow st = Ok (head (windows st)).
Proof.
  intros Hall. unfold getFocusedWindow.
  assert (find_focused (windows st) st = Ok None) as ->; [|reflexivity].
  induction Hall as [|w ws Hw _ IH]; simpl; [reflexivity|].
  rewrite Hw. simpl. exact IH.
Qed.

(** C9, counterexample.  One window is tracked and none has the focus:
    the owning window of a background page resolves to nothing, not to
    the first window, which is what the controller's [getFocusedWindow]
    returns in the same state. *)
Lemma backgroundPage_not_first_window :
  BrowserWindow_getFocusedWindow ready = None
  ∧ is_Some (head (windows ready))
  ∧ getFocusedWindow ready = Ok (head (windows ready))
  ∧ getWindowFromWebContents backgroundPage ready = Ok None.
Proof. repeat split; vm_compute; eauto. Qed.

(** C9, as amended.  For a content surface of type [backgroundPage]
    that is not the tracked popup's content, the owning-window
    resolution goes by Electron's [BrowserWindow.getFocusedWindow()]:
    when no window has the focus it resolves to nothing ([null]),
    whatever [windows] holds; when a window has the focus it is that
    window's lookup by presentation surface. *)
Theorem backgroundPage_resolution wc st :
  wc_type wc = "backgroundPage" →
  is_popup_content wc st = None →
  (BrowserWindow_getFocusedWindow st = None →
   getWindowFromWebContents wc st = Ok None)
  ∧ (∀ h, BrowserWindow_getFocusedWindow st = Some h →
     getWindowFromWebContents wc st = Ok (getWindowFromBrowserWindow h st)).
Proof.
  intros Htype Hpopup.
  assert (getParentWindowOfTab wc st = Ok (BrowserWindow_getFocusedWindow st)) as Hparent.
  { unfold getParentWindowOfTab. rewrite Htype. reflexivity. }
  unfold getWindowFromWebContents. rewrite Hpopup, Hparent. cbn [and_then].
  split.
  - intros ->. reflexivity.
  - intros h ->. reflexivity.
Qed.

(** A background page while the only window does not have the focus. *)
Lemma backgroundPage_resolution_witness :
  wc_type backgroundPage = "backgroundPage"
  ∧ is_popup_content backgroundPage ready = None
  ∧ BrowserWindow_getFocusedWindow ready = None
  ∧ getWindowFromWebContents backgroundPage ready = Ok None.
Proof.
  assert (wc_type backgroundPage = "backgroundPage") as Htype by reflexivity.
  assert (is_popup_content backgroundPage ready = None) as Hpopup by reflexivity.
  assert (BrowserWindow_getFocusedWindow ready = None) as Hfocus
    by (vm_compute; reflexivity).
  split; [exact Htype|]. split; [exact Hpopup|]. split; [exact Hfocus|].
  exact (proj1 (backgroundPage_resolution backgroundPage ready Htype Hpopup) Hfocus).
Defined.

End ShellClaims.

(** * More on the listener registry *)

Section EventBridgeRuns.
Import EventBridge BridgeRuns Scenario.

Implicit Types (b : Bridge) (cb f g : Fn) (l : list Fn) (name ext : string).

Lemma formatIpcName_inj name name' :
  formatIpcName name = formatIpcName name' → name = name'.
Proof. unfold formatIpcName. cbn. intros Heq. injection Heq as Heq. exact Heq. Qed.

(** [addExtensionListener] as equations on the parts of the state. *)
Lemma add_listenerMap ext name cb b :
  listenerMap (addExtensionListener ext name cb b)
  = <[name := default [] (listenerMap b !! name) ++ [cb]]> (listenerMap b).
Proof.
  unfold addExtensionListener. destruct (listenerMap b !! name); cbn; [reflexivity|].
  apply insert_insert_eq.
Qed.

Lemma add_sent ext name cb b :
  sent (addExtensionListener ext name cb b)
  = sent b ++ match listenerMap b !! name with
              | Some _ => []
              | None => [Send "crx-add-listener" ext name]
              end.
Proof.
  unfold addExtensionListener. destruct (listenerMap b !! name); cbn; [|reflexivity].
  rewrite app_nil_r. reflexivity.
Qed.

Lemma add_ipc_get ext name cb b ch :
  ipc_get ch (addExtensionListener ext name cb b)
  = if decide (ch = formatIpcName name)
    then ipc_get ch b ++ [IpcWrapper (next_closure b) name cb]
    else ipc_get ch b.
Proof.
  unfold addExtensionListener, ipc_get.
  destruct (listenerMap b !! name); cbn;
    (destruct (decide (ch = formatIpcName name)) as [->|Hne];
     [rewrite lookup_insert_eq|rewrite lookup_insert_ne by congruence]; reflexivity).
Qed.

Lemma remove_ipc_get ext name cb b ch :
  ipc_get ch (removeExtensionListener ext name cb b)
  = if decide (ch = formatIpcName name) then remove_last cb (ipc_get ch b)
    else ipc_get ch b.
Proof.
  unfold removeExtensionListener.
  set (b1 := match listenerMap b !! name with Some _ => _ | None => _ end).
  assert (ipc_listeners b1 = ipc_listeners b) as Hsame.
  { subst b1. destruct (listenerMap b !! name); [|reflexivity].
    match goal with |- context [decide ?P] => destruct (decide P) end; reflexivity. }
  unfold ipc_removeListener, ipc_get. rewrite Hsame.
  destruct (decide (ch = formatIpcName name)) as [->|Hne].
  - destruct (ipc_listeners b !! formatIpcName name) as [l|] eqn:Hl; cbn.
    + rewrite lookup_insert_eq. reflexivity.
    + rewrite Hsame, Hl. reflexivity.
  - destruct (ipc_listeners b !! formatIpcName name) as [l|] eqn:Hl; cbn.
    + rewrite lookup_insert_ne by congruence. reflexivity.
    + rewrite Hsame. reflexivity.
Qed.

(** The messages of a removal: one unsubscribe message when the name has
    an entry that the removal empties, none otherwise. *)
Lemma remove_sent ext name cb b :
  sent (removeExtensionListener ext name cb b)
  = sent b ++ match listenerMap b !! name with
              | Some l =>
                  if decide (length (if (findIndex cb l >? -1)%Z
                                     then splice1 (findIndex cb l) l else l) = 0)
                  then [Send "crx-remove-listener" ext name] else []
              | None => []
              end.
Proof.
  unfold removeExtensionListener, ipc_removeListener.
  destruct (listenerMap b !! name) as [l|].
  - match goal with |- context [decide ?P] => destruct (decide P) end;
      destruct (ipc_listeners _ !! _); cbn; rewrite ?app_nil_r; reflexivity.
  - destruct (ipc_listeners _ !! _); cbn; rewrite ?app_nil_r; reflexivity.
Qed.

Lemma findIndex_snoc cb l : (findIndex cb (l ++ [cb]) > -1)%Z.
Proof.
  pose proof (findIndex_present cb (l ++ [cb])) as H.
  assert (cb ∈ l ++ [cb]) as Hin by (apply elem_of_app; right; left).
  specialize (H Hin). lia.
Qed.

(** X1.  A callback that was just added is reported as registered, and
    the callbacks that were registered for the name stay registered. *)
Theorem has_after_add ext name cb b :
  hasExtensionListener ext name cb (addExtensionListener ext name cb b) = true
  ∧ ∀ f, hasExtensionListener ext name f b = true →
         hasExtensionListener ext name f (addExtensionListener ext name cb b) = true.
Proof.
  unfold hasExtensionListener. rewrite add_listenerMap, lookup_insert_eq.
  split.
  - apply bool_decide_eq_true. apply findIndex_snoc.
  - intros f. destruct (listenerMap b !! name) as [l|]; [|discriminate].
    cbn. intros Hf. apply bool_decide_eq_true in Hf. apply bool_decide_eq_true.
    assert (f ∈ l) as Hin.
    { destruct (decide (f ∈ l)) as [|Hnot]; [assumption|].
      rewrite (findIndex_absent _ _ Hnot) in Hf. lia. }
    pose proof (findIndex_present f (l ++ [cb])) as H.
    assert (f ∈ l ++ [cb]) as Hin' by (apply elem_of_app; left; exact Hin).
    specialize (H Hin'). lia.
Qed.

Lemma emit_listeners_snoc throws l f :
  emit_listeners throws (l ++ [f])
  = if existsb throws (flat_map invoked l) then emit_listeners throws l
    else emit_listeners throws l ++ invoked f.
Proof.
  induction l as [|g l IH]; cbn [app emit_listeners flat_map existsb].
  - destruct (existsb throws (invoked f)); rewrite app_nil_r; reflexivity.
  - rewrite existsb_app. destruct (existsb throws (invoked g)); cbn [orb]; [reflexivity|].
    rewrite IH. destruct (existsb throws (flat_map invoked l)); [reflexivity|].
    apply app_assoc.
Qed.

(** An emit in which no called function throws calls every attached
    listener. *)
Lemma emit_listeners_complete throws l :
  (∀ f, f ∈ emit_listeners throws l → throws f = false) →
  emit_listeners throws l = flat_map invoked l.
Proof.
  induction l as [|g l IH]; cbn [emit_listeners flat_map]; [reflexivity|].
  intros Hquiet.
  assert (existsb throws (invoked g) = false) as Hg.
  { apply not_true_is_false. intros Hex. apply existsb_exists in Hex as (f & Hf & Hthrows).
    rewrite Hquiet in Hthrows; [discriminate|].
    apply elem_of_app. left. apply list_elem_of_In. exact Hf. }
  rewrite Hg in Hquiet |- *.
  f_equal. apply IH. intros f Hf. apply Hquiet, elem_of_app. right. exact Hf.
Qed.

(** X2.  What adding a callback does to an emit of the name, for
    callbacks that may throw: when a callback attached before throws, the
    emit ends there as it did before the call; otherwise the new callback
    is called after all the others, also when the same function is
    attached already (nothing is deduplicated).  An emit of another name
    is as before. *)
Theorem emit_after_add throws ext name cb b :
  emit throws name (addExtensionListener ext name cb b)
  = (if existsb throws (dispatch name b) then emit throws name b
     else emit throws name b ++ invoked cb)
  ∧ ∀ name', name' ≠ name →
      emit throws name' (addExtensionListener ext name cb b) = emit throws name' b.
Proof.
  unfold emit, dispatch. split.
  - rewrite add_ipc_get. destruct (decide _) as [_|Hne]; [|congruence].
    rewrite emit_listeners_snoc. reflexivity.
  - intros name' Hne. rewrite add_ipc_get.
    destruct (decide _) as [Heq|_]; [|reflexivity].
    apply formatIpcName_inj in Heq. congruence.
Qed.

(** A is attached before B and throws: an emit calls A and ends, B is
    registered and is not called. *)
Example throwing_callback_ends_emit :
  hasExtensionListener "ext" "x" cbB
    (run [Add "ext" "x" cbA; Add "ext" "x" cbB] empty_bridge) = true
  ∧ emit (λ f, bool_decide (f = cbA)) "x"
      (run [Add "ext" "x" cbA; Add "ext" "x" cbB] empty_bridge) = [cbA]
  ∧ emit (λ f, bool_decide (f = cbB)) "x"
      (run [Add "ext" "x" cbA; Add "ext" "x" cbB] empty_bridge) = [cbA; cbB].
Proof. repeat split; vm_compute; reflexivity. Qed.

Lemma count_sent_app ch name b b' ms :
  sent b' = sent b ++ ms →
  count_sent ch name b'
  = count_sent ch name b
    + length (filter (λ m, channel m = ch ∧ msg_name m = name) ms).
Proof.
  intros Hsent. unfold count_sent. rewrite Hsent, filter_app, length_app. reflexivity.
Qed.

Lemma count_sent_one ch name m :
  length (filter (λ m, channel m = ch ∧ msg_name m = name) [m])
  = if decide (channel m = ch ∧ msg_name m = name) then 1 else 0.
Proof.
  rewrite filter_cons, filter_nil. destruct (decide _); reflexivity.
Qed.

Lemma count_sent_none ch name :
  length (filter (λ m, channel m = ch ∧ msg_name m = name) []) = 0.
Proof. reflexivity. Qed.

Lemma step_listenerMap_other b c name' :
  match c with Add _ n _ | Remove _ n _ => n end ≠ name' →
  listenerMap (step b c) !! name' = listenerMap b !! name'.
Proof.
  destruct c as [e n f|e n f]; cbn; intros Hne.
  - rewrite add_listenerMap. apply lookup_insert_ne. exact Hne.
  - rewrite remove_deletes_entry. apply lookup_delete_ne. exact Hne.
Qed.

Lemma step_count_sent_other b c ch name' :
  match c with Add _ n _ | Remove _ n _ => n end ≠ name' →
  count_sent ch name' (step b c) = count_sent ch name' b.
Proof.
  destruct c as [e n f|e n f]; cbn; intros Hne.
  - rewrite (count_sent_app _ _ b _ _ (add_sent e n f b)).
    destruct (listenerMap b !! n); rewrite ?count_sent_one, ?count_sent_none; [lia|].
    destruct (decide _) as [[_ Hn]|_]; [cbn in Hn; congruence|lia].
  - rewrite (count_sent_app _ _ b _ _ (remove_sent e n f b)).
    destruct (listenerMap b !! n) as [l|]; [|rewrite count_sent_none; lia].
    destruct (decide (length _ = 0));
      rewrite ?count_sent_one, ?count_sent_none; [|lia].
    destruct (decide _) as [[_ Hn]|_]; [cbn in Hn; congruence|lia].
Qed.

Lemma step_ipc_get_other b c name' :
  match c with Add _ n _ | Remove _ n _ => n end ≠ name' →
  ipc_get (formatIpcName name') (step b c) = ipc_get (formatIpcName name') b.
Proof.
  destruct c as [e n f|e n f]; cbn; intros Hne.
  - rewrite add_ipc_get. destruct (decide _) as [Heq|_]; [|reflexivity].
    apply formatIpcName_inj in Heq. congruence.
  - rewrite remove_ipc_get. destruct (decide _) as [Heq|_]; [|reflexivity].
    apply formatIpcName_inj in Heq. congruence.
Qed.

(** X3.  Event names are isolated from each other: a call for one name
    changes neither the callbacks registered for another name, nor what
    a dispatch of the other name runs, nor the subscriptions outstanding
    for it. *)
Theorem calls_do_not_cross_names b c name' :
  match c with Add _ n _ | Remove _ n _ => n end ≠ name' →
  listenerMap (step b c) !! name' = listenerMap b !! name'
  ∧ dispatch name' (step b c) = dispatch name' b
  ∧ outstanding name' (step b c) = outstanding name' b.
Proof.
  intros Hne. split; [apply step_listenerMap_other, Hne|]. split.
  - unfold dispatch. rewrite step_ipc_get_other by exact Hne. reflexivity.
  - unfold outstanding. rewrite !step_count_sent_other by exact Hne. reflexivity.
Qed.

(** A call for [x] next to callbacks registered for [y]. *)
Lemma calls_do_not_cross_names_witness :
  listenerMap (step (run [Add "ext" "y" cbB] empty_bridge) (Remove "ext" "x" cbA)) !! "y"
  = Some [cbB]
  ∧ dispatch "y" (step (run [Add "ext" "y" cbB] empty_bridge) (Remove "ext" "x" cbA))
    = [cbB]
  ∧ outstanding "y" (step (run [Add "ext" "y" cbB] empty_bridge) (Remove "ext" "x" cbA))
    = 1%Z.
Proof.
  assert ("x" ≠ "y") as Hne by discriminate.
  destruct (calls_do_not_cross_names (run [Add "ext" "y" cbB] empty_bridge)
              (Remove "ext" "x" cbA) "y" Hne) as (Hmap & Hdispatch & Hout).
  rewrite Hmap, Hdispatch, Hout. repeat split; vm_compute; reflexivity.
Defined.

(** X4.  Adding a callback for a name that has no entry and removing it
    again is a full cycle: the registry is as before, and exactly one
    subscribe message followed by one unsubscribe message was sent. *)
Theorem add_remove_cycle ext name cb b :
  listenerMap b !! name = None →
  listenerMap (removeExtensionListener ext name cb (addExtensionListener ext name cb b))
  = listenerMap b
  ∧ sent (removeExtensionListener ext name cb (addExtensionListener ext name cb b))
    = sent b ++ [Send "crx-add-listener" ext name; Send "crx-remove-listener" ext name]
  ∧ outstanding name
      (removeExtensionListener ext name cb (addExtensionListener ext name cb b))
    = outstanding name b.
Proof.
  intros Hnone.
  assert (sent (removeExtensionListener ext name cb (addExtensionListener ext name cb b))
          = sent b ++ [Send "crx-add-listener" ext name;
                       Send "crx-remove-listener" ext name]) as Hsent.
  { rewrite remove_sent, add_sent, add_listenerMap, lookup_insert_eq, Hnone. cbn.
    destruct (decide (cb = cb)); [|congruence]. cbn.
    rewrite <- app_assoc. reflexivity. }
  split; [|split; [exact Hsent|]].
  - rewrite remove_deletes_entry, add_listenerMap, delete_insert_eq.
    apply delete_id. exact Hnone.
  - unfold outstanding.
    rewrite !(count_sent_app _ _ b _ _ Hsent).
    rewrite !filter_cons, !filter_nil. cbn [channel msg_name].
    destruct (decide ("crx-add-listener" = "crx-add-listener" ∧ name = name))
      as [_|Hno]; [|exfalso; apply Hno; split; reflexivity].
    destruct (decide ("crx-remove-listener" = "crx-add-listener" ∧ name = name))
      as [[Hbad _]|_]; [discriminate|].
    destruct (decide ("crx-add-listener" = "crx-remove-listener" ∧ name = name))
      as [[Hbad _]|_]; [discriminate|].
    destruct (decide ("crx-remove-listener" = "crx-remove-listener" ∧ name = name))
      as [_|Hno]; [|exfalso; apply Hno; split; reflexivity].
    cbn. lia.
Qed.

Lemma add_remove_cycle_witness :
  listenerMap (run [Add "ext" "x" cbA; Remove "ext" "x" cbA] empty_bridge) = ∅
  ∧ sent (run [Add "ext" "x" cbA; Remove "ext" "x" cbA] empty_bridge)
    = [Send "crx-add-listener" "ext" "x"; Send "crx-remove-listener" "ext" "x"].
Proof.
  assert (listenerMap empty_bridge !! "x" = None) as Hnone by reflexivity.
  destruct (add_remove_cycle "ext" "x" cbA empty_bridge Hnone) as (Hmap & Hsent & _).
  split; [exact Hmap|exact Hsent].
Defined.

Lemma run_snoc calls c b : run (calls ++ [c]) b = step (run calls b) c.
Proof. unfold run. rewrite fold_left_app. reflexivity. Qed.

Lemma has_listener_elem ext name cb b :
  hasExtensionListener ext name cb b = true →
  ∃ l, listenerMap b !! name = Some l ∧ cb ∈ l.
Proof.
  unfold hasExtensionListener. destruct (listenerMap b !! name) as [l|]; [|discriminate].
  intros Hhas. apply bool_decide_eq_true in Hhas. exists l. split; [reflexivity|].
  destruct (decide (cb ∈ l)) as [|Hnot]; [assumption|].
  rewrite (findIndex_absent _ _ Hnot) in Hhas. lia.
Qed.

Lemma attached_step b c : attached b → attached (step b c).
Proof.
  intros Hb name l cb Hl Hcb.
  destruct (decide (match c with Add _ n _ | Remove _ n _ => n end = name)) as [Heq|Hne].
  - destruct c as [e n f|e n f]; cbn in Heq; subst n; cbn in Hl |- *.
    + rewrite add_listenerMap, lookup_insert_eq in Hl. injection Hl as <-.
      rewrite add_ipc_get. destruct (decide _) as [_|?]; [|congruence].
      apply elem_of_app in Hcb as [Hcb|Hcb].
      * destruct (listenerMap b !! name) as [l0|] eqn:Hl0; [|inversion Hcb].
        destruct (Hb name l0 cb Hl0 Hcb) as [s Hs].
        exists s. apply elem_of_app. left. exact Hs.
      * apply list_elem_of_singleton in Hcb as ->.
        eexists. apply elem_of_app. right. left.
    + rewrite remove_deletes_entry, lookup_delete_eq in Hl. discriminate.
  - rewrite step_listenerMap_other in Hl by exact Hne.
    rewrite step_ipc_get_other by exact Hne. eauto.
Qed.

Lemma attached_run calls b : attached b → attached (run calls b).
Proof.
  revert b. induction calls as [|c calls IH]; intros b Hb; [exact Hb|].
  apply IH, attached_step, Hb.
Qed.

(** The closure of a registered callback is among the listeners attached
    to the channel of its name. *)
Lemma registered_is_attached calls ext name cb :
  hasExtensionListener ext name cb (run calls empty_bridge) = true →
  invoked cb ⊆ dispatch name (run calls empty_bridge).
Proof.
  intros Hhas. apply has_listener_elem in Hhas as (l & Hl & Hcb).
  assert (attached empty_bridge) as H0.
  { intros n l0 f Hl0. cbn in Hl0. rewrite lookup_empty in Hl0. discriminate. }
  destruct (attached_run calls _ H0 name l cb Hl Hcb) as [s Hs].
  intros f Hf. unfold dispatch. apply list_elem_of_In, in_flat_map.
  exists (IpcWrapper s name cb). split; [apply list_elem_of_In; exact Hs|].
  cbn. apply list_elem_of_In. exact Hf.
Qed.

(** X5.  After any sequence of calls on the empty registry, an emit of a
    name in which no called function throws has called every callback
    that [hasExtensionListener] reports as registered for the name.  (An
    emit that a throwing callback ends leaves the callbacks attached
    after it uncalled.) *)
Theorem registered_callbacks_are_called throws calls ext name cb :
  hasExtensionListener ext name cb (run calls empty_bridge) = true →
  (∀ f, f ∈ emit throws name (run calls empty_bridge) → throws f = false) →
  invoked cb ⊆ emit throws name (run calls empty_bridge).
Proof.
  intros Hhas Hquiet. unfold emit in *.
  rewrite (emit_listeners_complete _ _ Hquiet).
  exact (registered_is_attached calls ext name cb Hhas).
Qed.

(** A and B are registered for [x]; C, which throws, was added for [y]:
    an emit of [x] calls B. *)
Lemma registered_callbacks_are_called_witness :
  hasExtensionListener "ext" "x" cbB
    (run [Add "ext" "x" cbA; Add "ext" "y" cbC; Add "ext" "x" cbB] empty_bridge) = true
  ∧ cbB ∈ emit (λ f, bool_decide (f = cbC)) "x"
      (run [Add "ext" "x" cbA; Add "ext" "y" cbC; Add "ext" "x" cbB] empty_bridge).
Proof.
  assert (hasExtensionListener "ext" "x" cbB
            (run [Add "ext" "x" cbA; Add "ext" "y" cbC; Add "ext" "x" cbB]
                 empty_bridge) = true) as Hhas by (vm_compute; reflexivity).
  assert (∀ f, f ∈ emit (λ f, bool_decide (f = cbC)) "x"
                     (run [Add "ext" "x" cbA; Add "ext" "y" cbC; Add "ext" "x" cbB]
                          empty_bridge) →
               bool_decide (f = cbC) = false) as Hquiet.
  { intros f Hf. vm_compute in Hf. apply list_elem_of_In in Hf.
    destruct Hf as [<-|[<-|[]]]; reflexivity. }
  split; [exact Hhas|].
  apply (registered_callbacks_are_called (λ f, bool_decide (f = cbC)) _ "ext" "x" cbB
           Hhas Hquiet).
  left.
Defined.

Lemma subscribed_step b c : subscribed b → subscribed (step b c).
Proof.
  intros Hb name. specialize (Hb name).
  destruct (decide (match c with Add _ n _ | Remove _ n _ => n end = name)) as [Heq|Hne].
  - destruct c as [e n f|e n f]; cbn in Heq; subst n; cbn [step].
    + rewrite add_listenerMap, lookup_insert_eq.
      rewrite !(count_sent_app _ _ b _ _ (add_sent e name f b)).
      destruct (listenerMap b !! name);
        rewrite ?count_sent_one, ?count_sent_none; cbn [channel msg_name]; [lia|].
      destruct (decide ("crx-add-listener" = "crx-remove-listener" ∧ name = name))
        as [[Hbad _]|_]; [discriminate|].
      destruct (decide ("crx-add-listener" = "crx-add-listener" ∧ name = name))
        as [_|Hno]; [lia|exfalso; apply Hno; split; reflexivity].
    + rewrite remove_deletes_entry, lookup_delete_eq.
      rewrite !(count_sent_app _ _ b _ _ (remove_sent e name f b)).
      destruct (listenerMap b !! name) as [l|]; [|rewrite !count_sent_none; lia].
      destruct (decide (length _ = 0));
        rewrite ?count_sent_one, ?count_sent_none; cbn [channel msg_name]; [|lia].
      destruct (decide ("crx-remove-listener" = "crx-add-listener" ∧ name = name))
        as [[Hbad _]|_]; [discriminate|].
      destruct (decide ("crx-remove-listener" = "crx-remove-listener" ∧ name = name));
        lia.
  - rewrite step_listenerMap_other by exact Hne.
    rewrite !step_count_sent_other by exact Hne. exact Hb.
Qed.

Lemma subscribed_run calls b : subscribed b → subscribed (run calls b).
Proof.
  revert b. induction calls as [|c calls IH]; intros b Hb; [exact Hb|].
  apply IH, subscribed_step, Hb.
Qed.

(** X6.  After any sequence of calls on the empty registry and for every
    name, the unsubscribe messages never outnumber the subscribe
    messages, and while callbacks are registered for the name at least
    one subscription is outstanding. *)
Theorem subscriptions_cover_registrations calls name :
  (0 ≤ outstanding name (run calls empty_bridge))%Z
  ∧ (0 < callback_count name (run calls empty_bridge) →
     (1 ≤ outstanding name (run calls empty_bridge))%Z).
Proof.
  assert (subscribed empty_bridge) as H0.
  { intros n. cbn. rewrite lookup_empty. unfold count_sent. cbn. lia. }
  pose proof (subscribed_run calls _ H0 name) as Hinv.
  unfold outstanding, callback_count. split.
  - destruct (listenerMap _ !! name); lia.
  - destruct (listenerMap _ !! name); cbn; lia.
Qed.

Lemma remove_first_absent f l : f ∉ l → remove_first f l = l.
Proof.
  induction l as [|g l IH]; intros Hnot; [reflexivity|].
  apply not_elem_of_cons in Hnot as [Hne Hl]. cbn.
  destruct (decide (g = f)); [congruence|]. rewrite IH by exact Hl. reflexivity.
Qed.

Lemma remove_last_absent f l : f ∉ l → remove_last f l = l.
Proof.
  intros Hnot. unfold remove_last. rewrite remove_first_absent.
  - apply rev_involutive.
  - intros Hin. apply Hnot. apply list_elem_of_In, in_rev, list_elem_of_In. exact Hin.
Qed.

Lemma wrappers_exclude_user_functions id l : Forall is_wrapper l → UserFn id ∉ l.
Proof.
  intros Hall Hin. rewrite Forall_forall in Hall. exact (Hall _ Hin).
Qed.

Lemma attached_count calls : ∀ b name,
  (∀ ch, Forall is_wrapper (ipc_get ch b)) →
  Forall passes_user_function calls →
  (∀ ch, Forall is_wrapper (ipc_get ch (run calls b)))
  ∧ length (ipc_get (formatIpcName name) (run calls b))
    = length (ipc_get (formatIpcName name) b) + adds_for name calls.
Proof.
  induction calls as [|c calls IH]; intros b name Hb Hcalls.
  - split; [exact Hb|cbn; lia].
  - apply Forall_cons in Hcalls as [Hc Hcalls].
    assert (∀ ch, Forall is_wrapper (ipc_get ch (step b c))) as Hstep.
    { intros ch. destruct c as [e n f|e n f]; cbn [step].
      - rewrite add_ipc_get. destruct (decide _); [|apply Hb].
        apply Forall_app. split; [apply Hb|]. repeat constructor.
      - rewrite remove_ipc_get. destruct (decide _); [|apply Hb].
        destruct f as [id|]; [|destruct Hc].
        rewrite remove_last_absent; [apply Hb|].
        apply wrappers_exclude_user_functions, Hb. }
    destruct (IH (step b c) name Hstep Hcalls) as [Hall Hlen].
    split; [exact Hall|]. change (run (c :: calls) b) with (run calls (step b c)).
    rewrite Hlen. destruct c as [e n f|e n f]; cbn [step adds_for].
    + rewrite add_ipc_get.
      destruct (String.eqb_spec n name) as [->|Hne].
      * destruct (decide _) as [_|?]; [|congruence]. rewrite length_app. cbn. lia.
      * destruct (decide _) as [Heq|_]; [|lia].
        apply formatIpcName_inj in Heq. congruence.
    + rewrite remove_ipc_get. destruct (decide _) as [_|_]; [|lia].
      destruct f as [id|]; [|destruct Hc].
      rewrite remove_last_absent; [lia|].
      apply wrappers_exclude_user_functions, Hb.
Qed.

(** X7.  When callers pass their own functions, the listeners attached
    to the channel of a name only accumulate: after any sequence of
    calls on the empty registry their number is the number of
    [addExtensionListener] calls for the name, whatever was removed. *)
Theorem attached_listeners_accumulate calls name :
  Forall passes_user_function calls →
  length (ipc_get (formatIpcName name) (run calls empty_bridge)) = adds_for name calls.
Proof.
  intros Hcalls.
  assert (∀ ch, Forall is_wrapper (ipc_get ch empty_bridge)) as H0.
  { intros ch. unfold ipc_get. cbn. rewrite lookup_empty. constructor. }
  destruct (attached_count calls empty_bridge name H0 Hcalls) as [_ Hlen].
  rewrite Hlen. unfold ipc_get. cbn. rewrite lookup_empty. reflexivity.
Qed.

(** Two additions and two removals for [x] leave two listeners. *)
Lemma attached_listeners_accumulate_witness :
  length (ipc_get (formatIpcName "x")
            (run [Add "ext" "x" cbA; Add "ext" "x" cbB;
                  Remove "ext" "x" cbA; Remove "ext" "x" cbB] empty_bridge)) = 2.
Proof.
  apply (attached_listeners_accumulate
           [Add "ext" "x" cbA; Add "ext" "x" cbB;
            Remove "ext" "x" cbA; Remove "ext" "x" cbB] "x").
  repeat constructor.
Defined.

End EventBridgeRuns.

(** * More on extension discovery *)

Section VersionNameFacts.
Import Loader VersionNames Scenario.

Implicit Types (r : regex) (s x y : string) (c : ascii).

Lemma append_cons c x y : String c x +:+ y = String c (x +:+ y).
Proof. reflexivity. Qed.

Lemma append_nil_l y : "" +:+ y = y.
Proof. reflexivity. Qed.

Lemma append_nil_r s : s +:+ "" = s.
Proof. induction s as [|c s IH]; [reflexivity|]. rewrite append_cons, IH. reflexivity. Qed.

Lemma append_assoc x y s : (x +:+ y) +:+ s = x +:+ (y +:+ s).
Proof.
  induction x as [|c x IH]; [reflexivity|]. rewrite !append_cons, IH. reflexivity.
Qed.

Lemma append_is_empty x y : x +:+ y = "" → x = "" ∧ y = "".
Proof. destruct x; [rewrite append_nil_l; auto|rewrite append_cons; discriminate]. Qed.

(** ** The matcher decides membership in the language *)

Lemma nullable_lang r : nullable r = true → lang r "".
Proof.
  induction r as [| |p|r1 IH1 r2 IH2|r1 IH1 r2 IH2|r IH]; cbn; intros Hn;
    try discriminate.
  - constructor.
  - apply andb_prop in Hn as [H1 H2].
    apply (lang_cat r1 r2 "" ""); auto.
  - apply orb_prop in Hn as [H|H]; [apply lang_alt_l|apply lang_alt_r]; auto.
  - constructor.
Qed.

Lemma lang_nullable r s : lang r s → s = "" → nullable r = true.
Proof.
  induction 1 as [|p c Hp|r1 r2 x y _ IH1 _ IH2|r1 r2 x _ IH|r1 r2 x _ IH
                  |r|r x y _ _ _ _]; cbn; intros Hs; try reflexivity.
  - discriminate.
  - apply append_is_empty in Hs as [-> ->]. rewrite IH1, IH2; reflexivity.
  - rewrite IH by exact Hs. reflexivity.
  - rewrite IH by exact Hs. apply orb_true_r.
Qed.

Lemma deriv_lang r : ∀ c s, lang (deriv c r) s → lang r (String c s).
Proof.
  induction r as [| |p|r1 IH1 r2 IH2|r1 IH1 r2 IH2|r IH]; cbn; intros c s H.
  - inversion H.
  - inversion H.
  - destruct (p c) eqn:Hp; inversion H; subst. constructor. exact Hp.
  - destruct (nullable r1) eqn:Hn.
    + inversion H as [| | | ? ? ? Hl | ? ? ? Hr | |]; subst.
      * inversion Hl as [| |? ? x y Hx Hy| | | |]; subst.
        apply (lang_cat r1 r2 (String c x) y); auto.
      * apply (lang_cat r1 r2 "" (String c s)); [apply nullable_lang, Hn|auto].
    + inversion H as [| |? ? x y Hx Hy| | | |]; subst.
      apply (lang_cat r1 r2 (String c x) y); auto.
  - inversion H; subst; [apply lang_alt_l|apply lang_alt_r]; auto.
  - inversion H as [| |? ? x y Hx Hy| | | |]; subst.
    apply (lang_star_cons r (String c x) y); auto.
Qed.

Lemma lang_deriv r s : lang r s → ∀ c s', s = String c s' → lang (deriv c r) s'.
Proof.
  induction 1 as [|p c0 Hp|r1 r2 x y Hx IH1 Hy IH2|r1 r2 x _ IH|r1 r2 x _ IH
                  |r|r x y Hx IH1 Hy IH2]; intros c s' Hs; cbn.
  - discriminate.
  - injection Hs as -> <-. rewrite Hp. constructor.
  - destruct x as [|c1 x']; [rewrite append_nil_l in Hs|rewrite append_cons in Hs].
    + rewrite (lang_nullable r1 "" Hx eq_refl). apply lang_alt_r. auto.
    + injection Hs as -> <-.
      assert (lang (Cat (deriv c r1) r2) (x' +:+ y)) as Hcat
        by (constructor; [apply (IH1 c x' eq_refl)|exact Hy]).
      destruct (nullable r1); [apply lang_alt_l|]; exact Hcat.
  - apply lang_alt_l. auto.
  - apply lang_alt_r. auto.
  - discriminate.
  - destruct x as [|c1 x']; [rewrite append_nil_l in Hs|rewrite append_cons in Hs].
    + apply (IH2 c s' Hs).
    + injection Hs as -> <-. constructor; [apply (IH1 c x' eq_refl)|exact Hy].
Qed.

Lemma matches_lang r s : matches r s = true ↔ lang r s.
Proof.
  revert r. induction s as [|c s IH]; intros r; cbn.
  - split; [apply nullable_lang|intros H; apply (lang_nullable r "" H eq_refl)].
  - rewrite IH. split; [apply deriv_lang|intros H; apply (lang_deriv r _ H c s eq_refl)].
Qed.

(** ** What [VERSION_REGEX] accepts *)

Lemma all_chars_append p x y :
  all_chars p (x +:+ y) = all_chars p x && all_chars p y.
Proof.
  induction x as [|c x IH]; [reflexivity|].
  rewrite append_cons. cbn. rewrite IH, andb_assoc. reflexivity.
Qed.

Lemma all_chars_weaken (p q : ascii → bool) s :
  (∀ c, p c = true → q c = true) → all_chars p s = true → all_chars q s = true.
Proof.
  intros Hpq. induction s as [|c s IH]; cbn; [reflexivity|].
  intros H. apply andb_prop in H as [Hc Hs]. rewrite (Hpq c Hc), (IH Hs). reflexivity.
Qed.

Lemma lang_digit s : lang digit s ↔ ∃ c, s = String c "" ∧ is_digit c = true.
Proof.
  split.
  - intros H. inversion H; subst. eauto.
  - intros (c & -> & Hc). constructor. exact Hc.
Qed.

Lemma lang_star_digit s : lang (Star digit) s ↔ all_chars is_digit s = true.
Proof.
  split.
  - intros H. remember (Star digit) as r eqn:Hr.
    induction H as [| | | | | |r x y Hx _ _ IH]; try discriminate; [reflexivity|].
    injection Hr as ->. apply lang_digit in Hx as (c & -> & Hc).
    rewrite append_cons, append_nil_l. cbn. rewrite Hc, IH; reflexivity.
  - induction s as [|c s IH]; cbn; intros H; [constructor|].
    apply andb_prop in H as [Hc Hs].
    apply (lang_star_cons digit (String c "") s); [|auto].
    apply lang_digit. eauto.
Qed.

Lemma lang_plus_digit s : lang (plus digit) s ↔ number s.
Proof.
  unfold plus, number. split.
  - intros H. inversion H as [| |? ? x y Hx Hy| | | |]; subst.
    apply lang_digit in Hx as (c & -> & Hc). apply lang_star_digit in Hy.
    rewrite append_cons, append_nil_l. split; [discriminate|].
    cbn. rewrite Hc, Hy. reflexivity.
  - intros [Hne H]. destruct s as [|c s]; [congruence|].
    cbn in H. apply andb_prop in H as [Hc Hs].
    apply (lang_cat digit (Star digit) (String c "") s).
    + apply lang_digit. eauto.
    + apply lang_star_digit, Hs.
Qed.

Lemma lang_chr c s : lang (chr c) s ↔ s = String c "".
Proof.
  split.
  - intros H. inversion H as [|? c' Hc| | | | |]; subst.
    apply Ascii.eqb_eq in Hc. subst. reflexivity.
  - intros ->. constructor. apply Ascii.eqb_refl.
Qed.

Lemma lang_group s :
  lang group s ↔ ∃ n, number n ∧ (s = n ∨ s = n +:+ ".").
Proof.
  unfold group, opt. split.
  - intros H. inversion H as [| |? ? x y Hx Hy| | | |]; subst.
    apply lang_plus_digit in Hx. exists x. split; [exact Hx|].
    inversion Hy as [| | |? ? ? Hdot|? ? ? Heps| |]; subst.
    + apply lang_chr in Hdot as ->. right. reflexivity.
    + inversion Heps. left. apply append_nil_r.
  - intros (n & Hn & [->| ->]).
    + rewrite <- (append_nil_r n). constructor; [apply lang_plus_digit, Hn|].
      apply lang_alt_r. constructor.
    + constructor; [apply lang_plus_digit, Hn|].
      apply lang_alt_l, lang_chr. reflexivity.
Qed.

Lemma group_chars s : lang group s → s ≠ "" ∧ all_chars version_char s = true.
Proof.
  intros H. apply lang_group in H as (n & [Hne Hn] & Hs).
  assert (all_chars version_char n = true) as Hv.
  { eapply all_chars_weaken; [|exact Hn]. intros c Hc. unfold version_char.
    rewrite Hc. reflexivity. }
  destruct Hs as [->| ->].
  - auto.
  - split.
    + destruct n; [congruence|rewrite append_cons; discriminate].
    + rewrite all_chars_append, Hv. reflexivity.
Qed.

Lemma exactly_chars k s :
  lang (exactly k group) s → all_chars version_char s = true ∧ (0 < k → s ≠ "").
Proof.
  revert s. induction k as [|k IH]; cbn; intros s H.
  - inversion H. split; [reflexivity|lia].
  - inversion H as [| |? ? x y Hx Hy| | | |]; subst.
    apply group_chars in Hx as [Hne Hx]. apply IH in Hy as [Hy _].
    split.
    + rewrite all_chars_append, Hx, Hy. reflexivity.
    + intros _ Hempty. apply append_is_empty in Hempty as [? _]. congruence.
Qed.

Lemma at_most_chars k s : lang (at_most k group) s → all_chars version_char s = true.
Proof.
  revert s. induction k as [|k IH]; cbn; intros s H.
  - inversion H. reflexivity.
  - inversion H as [| | |? ? ? Hl|? ? ? Hr| |]; subst.
    + inversion Hl as [| |? ? x y Hx Hy| | | |]; subst.
      apply group_chars in Hx as [_ Hx]. apply IH in Hy.
      rewrite all_chars_append, Hx, Hy. reflexivity.
    + inversion Hr. reflexivity.
Qed.

Lemma all_chars_forall p s c :
  all_chars p s = true → In c (list_ascii_of_string s) → p c = true.
Proof.
  induction s as [|c' s IH]; cbn; [tauto|].
  intros H [->|Hin]; apply andb_prop in H as [Hc Hs]; auto.
Qed.

(** X8.  A directory name that [VERSION_REGEX] accepts is a non-empty
    version made of digits and dots, an underscore, and a non-empty
    decimal build number; in particular a name without underscore, such
    as a bare version [1.2.3], is never accepted. *)
Theorem VERSION_REGEX_requires_build name :
  matches VERSION_REGEX name = true →
  ∃ version build,
    name = version +:+ "_" +:+ build
    ∧ version ≠ "" ∧ all_chars version_char version = true
    ∧ number build.
Proof.
  intros H. apply matches_lang in H. unfold VERSION_REGEX, repeat_range in H.
  inversion H as [| |? ? v rest Hv Hrest| | | |]; subst.
  inversion Hrest as [| |? ? u build Hu Hbuild| | | |]; subst.
  apply lang_chr in Hu as ->. apply lang_plus_digit in Hbuild.
  inversion Hv as [| |? ? x y Hx Hy| | | |]; subst.
  apply (exactly_chars 2 x) in Hx as [Hx Hne]. apply (at_most_chars 2 y) in Hy.
  exists (x +:+ y), build. split; [reflexivity|]. split; [|split; [|exact Hbuild]].
  - intros Hempty. apply append_is_empty in Hempty as [Hxe _]. apply Hne; [lia|exact Hxe].
  - rewrite all_chars_append, Hx, Hy. reflexivity.
Qed.

Lemma VERSION_REGEX_requires_build_witness :
  ∃ version build,
    "2024.9.29.1273_0" = version +:+ "_" +:+ build
    ∧ version ≠ "" ∧ all_chars version_char version = true ∧ number build.
Proof.
  apply (VERSION_REGEX_requires_build "2024.9.29.1273_0"). vm_compute. reflexivity.
Defined.

Lemma lang_eq r x y : lang r x → x = y → lang r y.
Proof. intros H <-. exact H. Qed.

Lemma lang_group_dot n : number n → lang group (n +:+ ".").
Proof. intros Hn. apply lang_group. eauto. Qed.

Lemma lang_group_last n : number n → lang group n.
Proof. intros Hn. apply lang_group. eauto. Qed.

(** X9.  [VERSION_REGEX] accepts every name of the form Chrome uses for
    the directory of an installed version: two to four decimal numbers
    joined by dots, an underscore, and a decimal build number. *)
Theorem VERSION_REGEX_accepts_version_names parts build :
  2 ≤ length parts ≤ 4 →
  Forall number parts →
  number build →
  matches VERSION_REGEX (version_name parts build) = true.
Proof.
  intros Hlen Hparts Hbuild. apply matches_lang.
  unfold VERSION_REGEX, repeat_range, version_name.
  assert (lang (Cat (chr "_") (plus digit)) ("_" +:+ build)) as Htail.
  { constructor; [apply lang_chr; reflexivity|apply lang_plus_digit, Hbuild]. }
  destruct parts as [|a [|b [|c [|d [|e parts]]]]]; cbn in Hlen; try lia.
  - apply Forall_cons in Hparts as [Ha Hparts].
    apply Forall_cons in Hparts as [Hb _].
    eapply lang_eq.
    + constructor; [|exact Htail].
      apply (lang_cat _ _ ((a +:+ ".") +:+ (b +:+ "")) "").
      * constructor; [apply lang_group_dot, Ha|].
        constructor; [apply lang_group_last, Hb|constructor].
      * apply lang_alt_r. constructor.
    + cbn [String.concat]. rewrite ?append_nil_r, ?append_assoc. reflexivity.
  - apply Forall_cons in Hparts as [Ha Hparts].
    apply Forall_cons in Hparts as [Hb Hparts].
    apply Forall_cons in Hparts as [Hc _].
    eapply lang_eq.
    + constructor; [|exact Htail].
      apply (lang_cat _ _ ((a +:+ ".") +:+ ((b +:+ ".") +:+ "")) (c +:+ "")).
      * constructor; [apply lang_group_dot, Ha|].
        constructor; [apply lang_group_dot, Hb|constructor].
      * apply lang_alt_l. constructor; [apply lang_group_last, Hc|].
        apply lang_alt_r. constructor.
    + cbn [String.concat]. rewrite ?append_nil_r, ?append_assoc. reflexivity.
  - apply Forall_cons in Hparts as [Ha Hparts].
    apply Forall_cons in Hparts as [Hb Hparts].
    apply Forall_cons in Hparts as [Hc Hparts].
    apply Forall_cons in Hparts as [Hd _].
    eapply lang_eq.
    + constructor; [|exact Htail].
      apply (lang_cat _ _ ((a +:+ ".") +:+ ((b +:+ ".") +:+ ""))
                          ((c +:+ ".") +:+ (d +:+ ""))).
      * constructor; [apply lang_group_dot, Ha|].
        constructor; [apply lang_group_dot, Hb|constructor].
      * apply lang_alt_l. constructor; [apply lang_group_dot, Hc|].
        apply lang_alt_l. constructor; [apply lang_group_last, Hd|constructor].
    + cbn [String.concat]. rewrite ?append_nil_r, ?append_assoc. reflexivity.
Qed.

Lemma VERSION_REGEX_accepts_version_names_witness :
  matches VERSION_REGEX (version_name ["2024"; "9"; "29"; "1273"] "0") = true.
Proof.
  apply (VERSION_REGEX_accepts_version_names ["2024"; "9"; "29"; "1273"] "0").
  - cbn. lia.
  - repeat constructor; discriminate.
  - split; [discriminate|reflexivity].
Defined.

End VersionNameFacts.

(** * What the scan puts on the load list *)

Section LoadListFacts.
Import Loader VersionNames Scenario.

Lemma promise_all_resolved_inv {A} (l : list (result A)) (found : list A) :
  promise_all l = Ok found → Forall2 (λ r a, r = Ok a) l found.
Proof.
  revert found. induction l as [|r l IH]; cbn; intros found H.
  - injection H as <-. constructor.
  - destruct r as [a|e]; cbn in H; [|discriminate].
    destruct (promise_all l) as [rest|e]; cbn in H; [|discriminate].
    injection H as <-. constructor; [reflexivity|]. apply IH. reflexivity.
Qed.

Lemma versionDir_matches extSubDirs v :
  versionDir extSubDirs = Some v → matches VERSION_REGEX v = true.
Proof.
  unfold versionDir. destruct (find _ extSubDirs) as [dir|] eqn:Hfind; [|discriminate].
  intros [= <-]. apply find_some in Hfind as [_ Hp].
  apply andb_prop in Hp as [_ Hm]. exact Hm.
Qed.

(** When a candidate contributes a path, it is its own path or that of
    its version directory, and there is a manifest at that path. *)
Lemma candidate_contributes root extensionsPath dirEnt p :
  candidate root extensionsPath dirEnt = Ok (Some p) →
  manifestExists root (Some p) = true
  ∧ (p = extensionsPath ++ [name dirEnt]
     ∨ ∃ v, p = (extensionsPath ++ [name dirEnt]) ++ [v]
            ∧ matches VERSION_REGEX v = true
            ∧ manifestExists root (Some (extensionsPath ++ [name dirEnt])) = false).
Proof.
  unfold candidate.
  destruct (manifestExists root (Some (extensionsPath ++ [name dirEnt]))) eqn:Hman.
  - intros [= <-]. auto.
  - destruct (readdir root (extensionsPath ++ [name dirEnt])) as [subs|e];
      unfold and_then; [|discriminate].
    destruct (versionDir subs) as [v|] eqn:Hv; unfold path_join; [|discriminate].
    match goal with
    | |- context [manifestExists root ?q] =>
        destruct (manifestExists root q) eqn:Hman2; [|discriminate]
    end.
    intros [= <-]. split; [exact Hman2|]. right. exists v.
    split; [reflexivity|]. split; [eapply versionDir_matches; eassumption|reflexivity].
Qed.

(** X10.  Every path on the load list holds a [manifest.json] file, and
    it is either a directory entry of the extensions directory or, when
    that entry has no manifest of its own, a subdirectory of it whose
    name [VERSION_REGEX] accepts.  Entries that are no directories
    contribute nothing. *)
Theorem load_list_is_sound root extensionsPath paths p :
  extensionDirectories root extensionsPath = Ok paths →
  p ∈ paths →
  manifestExists root (Some p) = true
  ∧ ∃ subDirectories dirEnt,
      readdir root extensionsPath = Ok subDirectories
      ∧ dirEnt ∈ subDirectories ∧ isDirectory dirEnt = true
      ∧ (p = extensionsPath ++ [name dirEnt]
         ∨ ∃ v, p = (extensionsPath ++ [name dirEnt]) ++ [v]
                ∧ matches VERSION_REGEX v = true
                ∧ manifestExists root (Some (extensionsPath ++ [name dirEnt])) = false).
Proof.
  unfold extensionDirectories.
  destruct (readdir root extensionsPath) as [subDirectories|e]; unfold and_then;
    [|discriminate].
  destruct (promise_all _) as [found|e] eqn:Hall; [|discriminate].
  intros [= <-] Hp.
  apply list_elem_of_omap in Hp as (o & Ho & Hid). cbn in Hid. subst o.
  apply promise_all_resolved_inv in Hall.
  apply list_elem_of_lookup in Ho as [i Hi].
  destruct (Forall2_lookup_r _ _ _ _ _ Hall Hi) as (r & Hr & ->).
  apply list_elem_of_lookup_2, list_elem_of_fmap in Hr as (dirEnt & Hcand & Hin).
  apply list_elem_of_filter in Hin as [Hdir Hin].
  symmetry in Hcand. apply candidate_contributes in Hcand as [Hman Hshape].
  split; [exact Hman|]. exists subDirectories, dirEnt. auto.
Qed.

Lemma load_list_is_sound_witness :
  manifestExists disk_unsuffixed (Some ["extensions"; "b"; "2024.9.29.1273_0"]) = true.
Proof.
  assert (extensionDirectories disk_unsuffixed ["extensions"]
          = Ok [["extensions"; "a"]; ["extensions"; "b"; "2024.9.29.1273_0"]])
    as Hscan by (vm_compute; reflexivity).
  assert (["extensions"; "b"; "2024.9.29.1273_0"]
          ∈ [["extensions"; "a"]; ["extensions"; "b"; "2024.9.29.1273_0"]])
    as Hin by (right; left).
  exact (proj1 (load_list_is_sound disk_unsuffixed ["extensions"] _ _ Hscan Hin)).
Defined.

(** X11.  One candidate directory that has neither a manifest nor a
    subdirectory accepted by [VERSION_REGEX] makes [loadExtensions]
    reject as a whole: line 54 joins the path with [undefined], the
    candidate's promise rejects, and no extension is loaded, whatever
    the other candidates hold. *)
Theorem plain_directory_rejects_scan {Info} (load : Path → result Info)
    root extensionsPath subDirectories dirEnt extSubDirs :
  readdir root extensionsPath = Ok subDirectories →
  dirEnt ∈ subDirectories → isDirectory dirEnt = true →
  manifestExists root (Some (extensionsPath ++ [name dirEnt])) = false →
  readdir root (extensionsPath ++ [name dirEnt]) = Ok extSubDirs →
  versionDir extSubDirs = None →
  ∃ e, loadExtensions load root extensionsPath = Throw e.
Proof.
  intros Hread Hin Hdir Hman Hsub Hnone.
  pose proof (candidate_without_version_dir root extensionsPath dirEnt extSubDirs
                Hman Hsub Hnone) as Hthrow.
  destruct (scan_rejects root extensionsPath subDirectories dirEnt _
              Hread Hin Hdir Hthrow) as [e He].
  exists e. unfold loadExtensions. rewrite He. reflexivity.
Qed.

Lemma plain_directory_rejects_scan_witness :
  ∃ e, loadExtensions (λ p, Ok p) disk_plain_dir ["extensions"] = Throw e.
Proof.
  apply (plain_directory_rejects_scan (λ p, Ok p) disk_plain_dir ["extensions"]
           [MkDirent "a" true; MkDirent "d" true] (MkDirent "d" true)
           [MkDirent "src" true]).
  - vm_compute. reflexivity.
  - right. left.
  - reflexivity.
  - vm_compute. reflexivity.
  - vm_compute. reflexivity.
  - vm_compute. reflexivity.
Defined.

End LoadListFacts.

(** * Invariants of the controller *)

Section TrackingFacts.
Import Shell Handlers Scenario.

Implicit Types (st : Browser) (w win : TabbedBrowserWindow) (details : Details).

Lemma keeps_refl st : keeps_tracking st st.
Proof. repeat split. lia. Qed.

Lemma keeps_trans st1 st2 st3 :
  keeps_tracking st1 st2 → keeps_tracking st2 st3 → keeps_tracking st1 st3.
Proof.
  intros (Ht1 & He1 & Hn1) (Ht2 & He2 & Hn2).
  split; [congruence|]. split; [congruence|lia].
Qed.

Lemma tracked_ok_keeps st st' : keeps_tracking st st' → tracked_ok st → tracked_ok st'.
Proof.
  intros (Ht & He & Hn) (Hlt & Hnd & Hown & Hnd').
  split; [|split; [|split]].
  - intros o Ho.
    assert (bw_id o ∈ bw_id <$> electron st) as Hin
      by (rewrite <- He; apply list_elem_of_fmap_2; exact Ho).
    apply list_elem_of_fmap in Hin as (o' & -> & Ho').
    specialize (Hlt o' Ho'). lia.
  - rewrite He. exact Hnd.
  - rewrite Ht, He. exact Hown.
  - rewrite Ht. exact Hnd'.
Qed.

Lemma keeps_Tab_loadURL t u st : keeps_tracking st (Tab_loadURL t u st).
Proof. repeat split. cbn. lia. Qed.

Lemma tracked_insert st i w w' :
  windows st !! i = Some w → id w' = id w → window w' = window w →
  (λ w, (window w, id w)) <$> <[i := w']> (windows st) = tracked st.
Proof.
  intros Hw Hid Hwin. apply (fmap_insert_same _ _ _ w); [exact Hw|].
  cbn. rewrite Hid, Hwin. reflexivity.
Qed.

Lemma keeps_Tabs_create i w st :
  windows st !! i = Some w → keeps_tracking st (snd (Tabs_create i w st)).
Proof.
  intros Hw. unfold Tabs_create, onTabCreated. cbn [snd initialUrl set_tabs].
  match goal with
  | |- keeps_tracking st (if _ then Tab_loadURL _ _ ?s else _) =>
      assert (keeps_tracking st s) as Hs
  end.
  { split; [|split]; cbn; [|reflexivity|lia].
    apply (tracked_insert st i w); [exact Hw|reflexivity..]. }
  destruct (url_truthy (initialUrl w)); [|exact Hs].
  eapply keeps_trans; [exact Hs|apply keeps_Tab_loadURL].
Qed.

Lemma keeps_Tabs_select i w tabId st :
  windows st !! i = Some w → keeps_tracking st (Tabs_select i w tabId st).
Proof.
  intros Hw. unfold Tabs_select. destruct (find _ _); [|apply keeps_refl].
  split; [|split]; cbn; [|reflexivity|lia].
  apply (tracked_insert st i w); [exact Hw|reflexivity..].
Qed.

Lemma keeps_win_tabs_select i tabId st : keeps_tracking st (win_tabs_select i tabId st).
Proof.
  unfold win_tabs_select, window_at.
  destruct (windows st !! i) as [w|] eqn:Hw; [|apply keeps_refl].
  apply keeps_Tabs_select, Hw.
Qed.

Lemma bw_ids_alter (f : BrowserWindowObj → BrowserWindowObj) h (l : list BrowserWindowObj) :
  (∀ o, bw_id (f o) = bw_id o) → bw_id <$> alter f h l = bw_id <$> l.
Proof.
  intros Hf. rewrite (list_fmap_alter _ _ (λ x, x)) by (apply Forall_forall; auto).
  apply list_alter_id. reflexivity.
Qed.

Lemma keeps_destroy i st : keeps_tracking st (TabbedBrowserWindow_destroy i st).
Proof.
  unfold TabbedBrowserWindow_destroy, window_at.
  destruct (windows st !! i) as [w|] eqn:Hw; [|apply keeps_refl].
  split; [|split]; cbn; [| |lia].
  - apply (tracked_insert st i w); [exact Hw|reflexivity..].
  - apply bw_ids_alter. reflexivity.
Qed.

Lemma keeps_removeWindow h st : keeps_tracking st (removeWindow h st).
Proof.
  unfold removeWindow.
  destruct (getWindowFromBrowserWindow h st) as [[i w]|]; [|apply keeps_refl].
  apply keeps_destroy.
Qed.

Lemma keeps_createTab details st : keeps_tracking st (snd (createTab details st)).
Proof.
  unfold createTab.
  destruct (find_window (windowId details) st) as [[i w]|] eqn:Hfind; [|apply keeps_refl].
  apply find_window_resolved in Hfind as [_ Hw].
  pose proof (keeps_Tabs_create i w st Hw) as Hcreate.
  destruct (Tabs_create i w st) as [[t tab] st1]. cbn [snd] in Hcreate.
  destruct (truthy (url details)).
  - destruct (url_or_newTabUrl (url details)) as [u|e]; [|exact Hcreate].
    destruct (activation (active details)); cbn [snd].
    + eapply keeps_trans; [exact Hcreate|].
      eapply keeps_trans; [apply keeps_Tab_loadURL|apply keeps_win_tabs_select].
    + eapply keeps_trans; [exact Hcreate|apply keeps_Tab_loadURL].
  - destruct (activation (active details)); cbn [snd]; [|exact Hcreate].
    eapply keeps_trans; [exact Hcreate|apply keeps_win_tabs_select].
Qed.

Lemma keeps_run_microtask st : keeps_tracking st (run_microtask st).
Proof.
  unfold run_microtask. destruct (microtasks st) as [|i q]; [apply keeps_refl|].
  unfold win_tabs_create, window_at.
  destruct (windows (set_microtasks q st) !! i) as [w|] eqn:Hw.
  - pose proof (keeps_Tabs_create i w _ Hw) as Hcreate.
    destruct (Tabs_create i w (set_microtasks q st)) as [r st1]. exact Hcreate.
  - repeat split. cbn. lia.
Qed.

Lemma getWindowFromBrowserWindow_tracked h st i w :
  getWindowFromBrowserWindow h st = Some (i, w) →
  windows st !! i = Some w
  ∧ ∃ o, electron st !! h = Some o ∧ bw_destroyed o = false ∧ id w = bw_id o.
Proof.
  unfold getWindowFromBrowserWindow.
  destruct (electron st !! h) as [o|]; [|discriminate].
  destruct (bw_destroyed o) eqn:Hd; [discriminate|].
  intros Hfind. apply list_find_Some in Hfind as (Hi & Hid & _). eauto.
Qed.

Lemma getWindowFromWebContents_tracked wc st i w :
  getWindowFromWebContents wc st = Ok (Some (i, w)) → windows st !! i = Some w.
Proof.
  unfold getWindowFromWebContents.
  destruct (match is_popup_content wc st with Some _ => _ | None => _ end) as [[h|]|e];
    cbn; try discriminate.
  intros [= H]. apply getWindowFromBrowserWindow_tracked in H as [H _]. exact H.
Qed.

Lemma keeps_selectTab tab h st : keeps_tracking st (selectTab tab h st).
Proof.
  unfold selectTab.
  destruct (getWindowFromBrowserWindow h st) as [[i w]|] eqn:Hres; [|apply keeps_refl].
  apply getWindowFromBrowserWindow_tracked in Hres as [Hw _].
  apply keeps_Tabs_select, Hw.
Qed.

Lemma keeps_windowOpen wc u st :
  keeps_tracking st (snd (windowOpen_createWindow wc u st)).
Proof.
  unfold windowOpen_createWindow.
  destruct (getWindowFromWebContents wc st) as [[[i w]|]|e] eqn:Hres;
    try apply keeps_refl.
  apply getWindowFromWebContents_tracked in Hres.
  pose proof (keeps_Tabs_create i w st Hres) as Hcreate.
  destruct (Tabs_create i w st) as [[t tab] st1]. cbn [snd] in *.
  eapply keeps_trans; [exact Hcreate|apply keeps_Tab_loadURL].
Qed.

Lemma tracked_ok_new_window st st' :
  bw_id <$> electron st' = (bw_id <$> electron st) ++ [next_id st] →
  next_id st' = (next_id st + 2)%Z →
  tracked st' = tracked st
  ∨ tracked st' = tracked st ++ [(length (electron st), next_id st)] →
  tracked_ok st → tracked_ok st'.
Proof.
  intros He Hn Ht (Hlt & Hnd & Hown & Hnd').
  assert (∀ h n, (h, n) ∈ tracked st → h < length (electron st)) as Hbound.
  { intros h n Hin. specialize (Hown h n Hin).
    apply lookup_lt_Some in Hown. rewrite length_fmap in Hown. exact Hown. }
  split; [|split; [|split]].
  - intros o Ho.
    assert (bw_id o ∈ (bw_id <$> electron st) ++ [next_id st]) as Hin
      by (rewrite <- He; apply list_elem_of_fmap_2; exact Ho).
    apply elem_of_app in Hin as [Hin|Hin].
    + apply list_elem_of_fmap in Hin as (o' & -> & Ho'). specialize (Hlt o' Ho'). lia.
    + apply list_elem_of_singleton in Hin. lia.
  - rewrite He. apply NoDup_app. split; [exact Hnd|]. split; [|apply NoDup_singleton].
    intros n Hin Hn'. apply list_elem_of_singleton in Hn'. subst n.
    apply list_elem_of_fmap in Hin as (o' & Heq & Ho'). specialize (Hlt o' Ho'). lia.
  - intros h n Hin. rewrite He.
    destruct Ht as [Ht|Ht]; rewrite Ht in Hin.
    + rewrite lookup_app_l by (rewrite length_fmap; eapply Hbound; exact Hin). auto.
    + apply elem_of_app in Hin as [Hin|Hin].
      * rewrite lookup_app_l by (rewrite length_fmap; eapply Hbound; exact Hin). auto.
      * apply list_elem_of_singleton in Hin. injection Hin as -> ->.
        rewrite lookup_app_r by (rewrite length_fmap; lia).
        rewrite length_fmap, Nat.sub_diag. reflexivity.
  - destruct Ht as [Ht|Ht]; rewrite Ht; [exact Hnd'|].
    rewrite fmap_app. apply NoDup_app. split; [exact Hnd'|].
    split; [|apply NoDup_singleton].
    intros h Hin Hh. cbn in Hh. apply list_elem_of_singleton in Hh. subst h.
    apply list_elem_of_fmap in Hin as ([h n] & Heq & Hin). cbn in Heq. subst h.
    specialize (Hbound _ _ Hin). lia.
Qed.

Lemma tracked_ok_createWindow u st :
  tracked_ok st → tracked_ok (snd (createWindow u st)).
Proof.
  apply tracked_ok_new_window;
    unfold createWindow, TabbedBrowserWindow_new, BrowserWindow_new; cbn;
    destruct (webuiExtensionId st); cbn.
  - rewrite bw_ids_alter by reflexivity. rewrite fmap_app. reflexivity.
  - rewrite fmap_app. reflexivity.
  - reflexivity.
  - reflexivity.
  - right. unfold tracked. cbn. rewrite fmap_app. reflexivity.
  - left. reflexivity.
Qed.

Lemma tracked_ok_createInitialWindow st :
  tracked_ok st → tracked_ok (snd (createInitialWindow st)).
Proof.
  unfold createInitialWindow. destruct (newTabUrl_of st); [|auto].
  apply tracked_ok_createWindow.
Qed.

Lemma tracked_ok_exec c st : tracked_ok st → tracked_ok (exec st c).
Proof.
  destruct c as [| |details|details|h]; cbn [exec].
  - apply tracked_ok_createInitialWindow.
  - apply tracked_ok_keeps, keeps_run_microtask.
  - apply tracked_ok_keeps, keeps_createTab.
  - unfold provider_createWindow.
    destruct (url_or_newTabUrl (url details)) as [u|e]; [|auto].
    intros Hok. pose proof (tracked_ok_createWindow u st Hok) as Hcreate.
    destruct (createWindow u st) as [[win|e] st1]; exact Hcreate.
  - apply tracked_ok_keeps, keeps_removeWindow.
Qed.

Lemma find_focused_from_tracked ws st : ∀ k j w,
  find_focused_from k ws st = Ok (Some (j, w)) →
  k ≤ j ∧ ws !! (j - k) = Some w ∧ isFocused (window w) st = Ok true.
Proof.
  induction ws as [|w0 ws IH]; intros k j w; cbn; [discriminate|].
  destruct (isFocused (window w0) st) as [[]|e] eqn:Hf; cbn; try discriminate.
  - intros [= <- <-]. rewrite Nat.sub_diag. auto.
  - intros H. apply IH in H as (Hle & Hl & Hfoc).
    split; [lia|]. split; [|exact Hfoc].
    replace (j - k) with (S (j - S k)) by lia. exact Hl.
Qed.

Lemma focused_window_tracked st i w :
  focused_window st = Ok (Some (i, w)) → windows st !! i = Some w.
Proof.
  unfold focused_window.
  destruct (find_focused_from 0 (windows st) st) as [[[j w']|]|e] eqn:Hfind; cbn;
    try discriminate.
  - intros [= <- <-]. apply find_focused_from_tracked in Hfind as (_ & Hl & _).
    rewrite Nat.sub_0_r in Hl. exact Hl.
  - destruct (windows st) as [|w0 ws]; cbn; [discriminate|].
    intros [= <- <-]. reflexivity.
Qed.

Lemma tracked_ok_openLink u disposition st :
  tracked_ok st → tracked_ok (snd (openLink u disposition st)).
Proof.
  intros Hok. unfold openLink.
  destruct (focused_window st) as [win|e] eqn:Hfoc; [|exact Hok].
  destruct (String.eqb disposition "new-window").
  - pose proof (tracked_ok_createWindow (Given u) st Hok) as Hcreate.
    destruct (createWindow (Given u) st) as [[w|e] st1]; exact Hcreate.
  - destruct win as [[i w]|]; [|exact Hok].
    apply focused_window_tracked in Hfoc.
    pose proof (keeps_Tabs_create i w st Hfoc) as Hcreate.
    destruct (Tabs_create i w st) as [[t tab] st1]. cbn [snd] in *.
    eapply tracked_ok_keeps; [|exact Hok].
    eapply keeps_trans; [exact Hcreate|apply keeps_Tab_loadURL].
Qed.

Lemma tracked_ok_handle ev st : tracked_ok st → tracked_ok (handle st ev).
Proof.
  intros Hok. destruct ev as [c|tab h|wc u|u disposition| |p|webui]; cbn [handle].
  - apply tracked_ok_exec, Hok.
  - eapply tracked_ok_keeps; [apply keeps_selectTab|exact Hok].
  - eapply tracked_ok_keeps; [apply keeps_windowOpen|exact Hok].
  - apply tracked_ok_openLink, Hok.
  - unfold on_activate. destruct (BrowserWindow_getAllWindows st); [|exact Hok].
    pose proof (tracked_ok_createInitialWindow st Hok) as Hcreate.
    destruct (createInitialWindow st) as [[w|e] st1]; exact Hcreate.
  - exact Hok.
  - unfold init. destruct webui as [extId|e]; [|exact Hok].
    destruct (Loader.loadExtensions _ _ _);
      (pose proof (tracked_ok_createInitialWindow (set_webuiExtensionId extId st) Hok)
         as Hcreate;
       destruct (createInitialWindow (set_webuiExtensionId extId st))
         as [[w|err] st1]; exact Hcreate).
Qed.

Lemma tracked_ok_handle_all evs st : tracked_ok st → tracked_ok (handle_all evs st).
Proof.
  revert st. induction evs as [|ev evs IH]; intros st Hok; [exact Hok|].
  apply IH, tracked_ok_handle, Hok.
Qed.

Lemma tracked_ok_fresh first_id : tracked_ok (fresh_controller first_id).
Proof.
  split; [|split; [|split]]; cbn.
  - intros o Ho. inversion Ho.
  - constructor.
  - intros h n Hin. inversion Hin.
  - constructor.
Qed.

Lemma tracked_ok_unique_ids st : tracked_ok st → NoDup (window_ids st).
Proof.
  intros (_ & Hnd & Hown & Hnd').
  unfold window_ids. apply NoDup_fmap_2_strong; [|].
  - intros w1 w2 H1 H2 Hid.
    assert ((window w1, id w1) ∈ tracked st) as T1
      by (apply (list_elem_of_fmap_2 (λ w, (window w, id w))); exact H1).
    assert ((window w2, id w2) ∈ tracked st) as T2
      by (apply (list_elem_of_fmap_2 (λ w, (window w, id w))); exact H2).
    pose proof (Hown _ _ T1) as L1. pose proof (Hown _ _ T2) as L2.
    rewrite Hid in L1.
    assert (window w1 = window w2) as Hwin
      by exact (NoDup_lookup _ _ _ _ Hnd L1 L2).
    apply list_elem_of_lookup in H1 as [i1 Hi1]. apply list_elem_of_lookup in H2 as [i2 Hi2].
    assert (i1 = i2).
    { eapply (NoDup_lookup _ i1 i2 (window w1) Hnd').
      - unfold tracked. rewrite <- list_fmap_compose, list_lookup_fmap, Hi1. reflexivity.
      - unfold tracked. rewrite <- list_fmap_compose, list_lookup_fmap, Hi2.
        cbn. rewrite Hwin. reflexivity. }
    subst i2. congruence.
  - assert (NoDup (fst <$> tracked st)) as H by exact Hnd'.
    unfold tracked in H. rewrite <- list_fmap_compose in H.
    eapply NoDup_fmap_1. exact H.
Qed.

End TrackingFacts.

(** * More on the controller *)

Section ControllerFacts.
Import Shell Handlers Scenario.

Implicit Types (st : Browser) (w win : TabbedBrowserWindow) (details : Details).

(** X12.  Whatever sequence of events the controller handles after its
    construction, no two tracked windows have the same identifier, and
    every tracked window carries the identifier of its own
    [BrowserWindow]. *)
Theorem tracked_windows_have_unique_ids evs first_id :
  NoDup (window_ids (handle_all evs (fresh_controller first_id)))
  ∧ ∀ w, w ∈ windows (handle_all evs (fresh_controller first_id)) →
         bw_id <$> electron (handle_all evs (fresh_controller first_id)) !! window w
         = Some (id w).
Proof.
  pose proof (tracked_ok_handle_all evs _ (tracked_ok_fresh first_id)) as Hok.
  split; [apply tracked_ok_unique_ids, Hok|].
  intros w Hw. destruct Hok as (_ & _ & Hown & _).
  rewrite <- list_lookup_fmap. apply Hown.
  apply (list_elem_of_fmap_2 (λ w, (window w, id w))). exact Hw.
Qed.

Lemma find_by_unique_id st i w :
  NoDup (window_ids st) → windows st !! i = Some w →
  list_find (λ win, id win = id w) (windows st) = Some (i, w).
Proof.
  intros Hnd Hw. apply list_find_Some. split; [exact Hw|]. split; [reflexivity|].
  intros j y Hy Hlt Hid.
  assert (j = i); [|lia].
  eapply (NoDup_lookup _ j i (id w) Hnd); unfold window_ids;
    rewrite list_lookup_fmap; [rewrite Hy|rewrite Hw]; cbn; congruence.
Qed.

Lemma tracked_own_surface st w :
  tracked_ok st → w ∈ windows st →
  ∃ o, electron st !! window w = Some o ∧ bw_id o = id w.
Proof.
  intros (_ & _ & Hown & _) Hw.
  assert ((window w, id w) ∈ tracked st) as Ht
    by (apply (list_elem_of_fmap_2 (λ w, (window w, id w))); exact Hw).
  specialize (Hown _ _ Ht). rewrite list_lookup_fmap in Hown.
  destruct (electron st !! window w) as [o|]; [|discriminate].
  injection Hown as Hid. eauto.
Qed.

(** X13.  The two lookups invert the tracking: in a state with unique
    identifiers, the identifier of a tracked window resolves to that
    window, and so does its presentation surface as long as it is not
    destroyed. *)
Theorem lookups_find_tracked_window st i w :
  tracked_ok st →
  windows st !! i = Some w →
  find_window (JNum (id w)) st = Some (i, w)
  ∧ (isDestroyed (window w) st = false →
     getWindowFromBrowserWindow (window w) st = Some (i, w)).
Proof.
  intros Hok Hw. pose proof (tracked_ok_unique_ids st Hok) as Hnd.
  split; [apply find_by_unique_id; assumption|].
  assert (w ∈ windows st) as Hin by (apply list_elem_of_lookup; eauto).
  destruct (tracked_own_surface st w Hok Hin) as (o & Ho & Hid).
  unfold isDestroyed, getWindowFromBrowserWindow. rewrite Ho. intros ->.
  rewrite Hid. apply find_by_unique_id; assumption.
Qed.

Lemma tracked_ok_ready : tracked_ok ready.
Proof.
  assert (ready = handle_all [Run DoCreateInitialWindow; Run DoMicrotask]
                             (MkBrowser [] [] [] None (Some "webui") 1 [])) as ->
    by (vm_compute; reflexivity).
  apply tracked_ok_handle_all.
  split; [|split; [|split]]; cbn.
  - intros o Ho. inversion Ho.
  - constructor.
  - intros h n Hin. inversion Hin.
  - constructor.
Qed.

(** The window of the running controller, by identifier and by surface. *)
Lemma lookups_find_tracked_window_witness :
  ∃ w, windows ready !! 0 = Some w
       ∧ find_window (JNum 1) ready = Some (0, w)
       ∧ getWindowFromBrowserWindow 0 ready = Some (0, w).
Proof.
  assert (∃ w, windows ready !! 0 = Some w ∧ id w = 1%Z ∧ window w = 0)
    as (w & Hw & Hid & Hwin) by (eexists; repeat split; vm_compute; reflexivity).
  destruct (lookups_find_tracked_window ready 0 w tracked_ok_ready Hw) as [Hfind Hsurf].
  exists w. rewrite Hid in Hfind. rewrite Hwin in Hsurf.
  split; [exact Hw|]. split; [exact Hfind|]. apply Hsurf. reflexivity.
Defined.

Lemma resolved_surface_is_own st h i w :
  tracked_ok st → getWindowFromBrowserWindow h st = Some (i, w) →
  windows st !! i = Some w ∧ window w = h ∧ isDestroyed h st = false.
Proof.
  intros Hok Hres.
  destruct (getWindowFromBrowserWindow_tracked h st i w Hres) as (Hw & o & Ho & Hlive & Hid).
  split; [exact Hw|].
  assert (w ∈ windows st) as Hin by (apply list_elem_of_lookup; eauto).
  destruct (tracked_own_surface st w Hok Hin) as (o' & Ho' & Hid').
  destruct Hok as (_ & Hnd & _ & _).
  assert (window w = h) as Hwin.
  { eapply (NoDup_lookup _ _ _ (id w) Hnd); rewrite list_lookup_fmap;
      [rewrite Ho'|rewrite Ho]; cbn; congruence. }
  split; [exact Hwin|]. unfold isDestroyed. rewrite Ho. exact Hlive.
Qed.

(** X14.  A resolution never yields a destroyed window: in a state with
    unique identifiers, the window that [getWindowFromWebContents]
    returns for a content surface is tracked and its presentation
    surface is live. *)
Theorem resolved_window_is_live st wc i w :
  tracked_ok st →
  getWindowFromWebContents wc st = Ok (Some (i, w)) →
  windows st !! i = Some w ∧ isDestroyed (window w) st = false.
Proof.
  intros Hok. unfold getWindowFromWebContents.
  destruct (match is_popup_content wc st with Some _ => _ | None => _ end) as [[h|]|e];
    cbn; try discriminate.
  intros [= Hres].
  destruct (resolved_surface_is_own st h i w Hok Hres) as (Hw & -> & Hlive). auto.
Qed.

(** The content of the window of the running controller. *)
Lemma resolved_window_is_live_witness :
  ∃ w, getWindowFromWebContents (MkWebContents 2 "window" None) ready = Ok (Some (0, w))
       ∧ isDestroyed (window w) ready = false.
Proof.
  assert (∃ w, getWindowFromWebContents (MkWebContents 2 "window" None) ready
               = Ok (Some (0, w))) as (w & Hres) by (eexists; vm_compute; reflexivity).
  exists w. split; [exact Hres|].
  exact (proj2 (resolved_window_is_live ready _ 0 w tracked_ok_ready Hres)).
Defined.

Lemma destroyed_surface_unresolved h st :
  isDestroyed h st = true → getWindowFromBrowserWindow h st = None.
Proof.
  unfold isDestroyed, getWindowFromBrowserWindow.
  destruct (electron st !! h) as [o|]; [|reflexivity]. intros ->. reflexivity.
Qed.

Lemma removeWindow_destroys h st i w :
  getWindowFromBrowserWindow h st = Some (i, w) →
  isDestroyed (window w) (removeWindow h st) = true.
Proof.
  intros Hres. pose proof (getWindowFromBrowserWindow_tracked h st i w Hres) as [Hw _].
  unfold removeWindow. rewrite Hres.
  unfold TabbedBrowserWindow_destroy, window_at. rewrite Hw.
  unfold isDestroyed. cbn. rewrite list_lookup_alter_eq.
  destruct (electron st !! window w); reflexivity.
Qed.

(** X15.  Removing a window twice is removing it once: in a state with
    unique identifiers the second [removeWindow] for the same
    presentation surface changes nothing. *)
Theorem removeWindow_idempotent st h :
  tracked_ok st →
  removeWindow h (removeWindow h st) = removeWindow h st.
Proof.
  intros Hok.
  destruct (getWindowFromBrowserWindow h st) as [[i w]|] eqn:Hres.
  - destruct (resolved_surface_is_own st h i w Hok Hres) as (_ & Hwin & _).
    pose proof (removeWindow_destroys h st i w Hres) as Hd. rewrite Hwin in Hd.
    unfold removeWindow at 1. rewrite (destroyed_surface_unresolved _ _ Hd). reflexivity.
  - unfold removeWindow. rewrite Hres, Hres. reflexivity.
Qed.

Lemma removeWindow_idempotent_witness :
  removeWindow 0 (removeWindow 0 ready) = removeWindow 0 ready.
Proof. apply (removeWindow_idempotent ready 0), tracked_ok_ready. Defined.

(** X16.  For a presentation surface that is destroyed, [selectTab],
    [removeTab] and [removeWindow] of the provider do nothing and do
    not throw, whatever the tab and whatever the tab collection's
    [remove] does. *)
Theorem destroyed_surface_is_ignored st h tab Tabs_remove :
  isDestroyed h st = true →
  selectTab tab h st = st
  ∧ removeTab Tabs_remove tab h st = st
  ∧ removeWindow h st = st.
Proof.
  intros Hd. apply destroyed_surface_unresolved in Hd.
  unfold selectTab, removeTab, removeWindow. rewrite Hd. auto.
Qed.

(** After the window was removed. *)
Lemma destroyed_surface_is_ignored_witness :
  selectTab (MkWebContents 3 "browserView" (Some 0)) 0 window_removed = window_removed
  ∧ removeWindow 0 window_removed = window_removed.
Proof.
  assert (isDestroyed 0 window_removed = true) as Hd by reflexivity.
  destruct (destroyed_surface_is_ignored window_removed 0
              (MkWebContents 3 "browserView" (Some 0)) (λ _ _ _ st, st) Hd)
    as (Hsel & _ & Hrem).
  split; [exact Hsel|exact Hrem].
Defined.

Lemma find_focused_found ws st w :
  find_focused ws st = Ok (Some w) → w ∈ ws ∧ isFocused (window w) st = Ok true.
Proof.
  induction ws as [|w0 ws IH]; cbn; [discriminate|].
  destruct (isFocused (window w0) st) as [[]|e] eqn:Hf; cbn; try discriminate.
  - intros [= <-]. split; [left|exact Hf].
  - intros H. apply IH in H as [Hin Hfoc]. split; [right; exact Hin|exact Hfoc].
Qed.

Lemma find_focused_none ws st :
  find_focused ws st = Ok None → ∀ w, w ∈ ws → isFocused (window w) st = Ok false.
Proof.
  induction ws as [|w0 ws IH]; cbn; intros H w Hw; [inversion Hw|].
  destruct (isFocused (window w0) st) as [[]|e] eqn:Hf; cbn in H; try discriminate.
  apply elem_of_cons in Hw as [->|Hw]; [exact Hf|auto].
Qed.

(** X17.  When [getFocusedWindow] returns, what it returns is a tracked
    window; it returns nothing only when no window is tracked; and when
    a tracked window has the focus, the window returned has the focus
    (the fallback to the first window is used only without focus). *)
Theorem getFocusedWindow_result st r :
  getFocusedWindow st = Ok r →
  (∀ w, r = Some w → w ∈ windows st)
  ∧ (r = None ↔ windows st = [])
  ∧ ((∃ w, w ∈ windows st ∧ isFocused (window w) st = Ok true) →
     ∃ w, r = Some w ∧ isFocused (window w) st = Ok true).
Proof.
  unfold getFocusedWindow.
  destruct (find_focused (windows st) st) as [[w0|]|e] eqn:Hfind; cbn; try discriminate.
  - intros [= <-]. apply find_focused_found in Hfind as [Hin Hfoc].
    split; [intros w [= <-]; exact Hin|]. split.
    + split; [discriminate|]. intros Hnil. rewrite Hnil in Hin. inversion Hin.
    + intros _. eauto.
  - intros [= <-]. pose proof (find_focused_none _ _ Hfind) as Hnone.
    split; [|split].
    + intros w Hw. destruct (windows st) as [|w1 ws]; [discriminate|].
      cbn in Hw. injection Hw as <-. left.
    + destruct (windows st); cbn; split; congruence.
    + intros (w & Hw & Hfoc). rewrite (Hnone w Hw) in Hfoc. discriminate.
Qed.

(** No window of the running controller has the focus. *)
Lemma getFocusedWindow_result_witness :
  ∃ w, getFocusedWindow ready = Ok (Some w) ∧ w ∈ windows ready.
Proof.
  assert (∃ w, getFocusedWindow ready = Ok (Some w)) as (w & Hres)
    by (eexists; vm_compute; reflexivity).
  exists w. split; [exact Hres|].
  exact (proj1 (getFocusedWindow_result ready (Some w) Hres) w eq_refl).
Defined.

Lemma find_focused_from_agrees ws st k :
  find_focused ws st
  = match find_focused_from k ws st with
    | Ok r => Ok (snd <$> r)
    | Throw e => Throw e
    end.
Proof.
  revert k. induction ws as [|w ws IH]; intros k; cbn; [reflexivity|].
  destruct (isFocused (window w) st) as [[]|e0]; cbn; [reflexivity|apply IH|reflexivity].
Qed.

(** [focused_window] is [getFocusedWindow] with the position of the
    window added. *)
Lemma focused_window_agrees st r :
  focused_window st = Ok r → getFocusedWindow st = Ok (snd <$> r).
Proof.
  unfold focused_window, getFocusedWindow.
  rewrite (find_focused_from_agrees (windows st) st 0).
  destruct (find_focused_from 0 (windows st) st) as [[[j w]|]|e]; cbn; try discriminate.
  - intros [= <-]. reflexivity.
  - intros [= <-]. destruct (windows st); reflexivity.
Qed.

Lemma alter_last {A} (f : A → A) (l : list A) (o : A) :
  alter f (length l) (l ++ [o]) = l ++ [f o].
Proof.
  replace (length l) with (length l + 0) by lia. rewrite alter_app_r. reflexivity.
Qed.

(** [tabs.create()] followed by a navigation of the new tab, in full. *)
Lemma Tabs_create_then_load i w st u :
  Tab_loadURL (length (tab_objects st)) u (snd (Tabs_create i w st))
  = MkBrowser
      (<[i := set_tabs
                (MkTabs (tabs_window (tabs w))
                        (tabList (tabs w) ++ [length (tab_objects st)])
                        (match selected (tabs w) with
                         | Some s => Some s
                         | None => Some (length (tab_objects st))
                         end)) w]> (windows st))
      (electron st)
      (tab_objects st
       ++ [MkTab (next_id st) (tabs_window (tabs w)) (next_id st)
                 ((if url_truthy (initialUrl w) then [initialUrl w] else []) ++ [u])])
      (popup st) (webuiExtensionId st) (next_id st + 1) (microtasks st)
  ∧ fst (Tabs_create i w st)
    = (length (tab_objects st),
       MkTab (next_id st) (tabs_window (tabs w)) (next_id st) []).
Proof.
  unfold Tabs_create, onTabCreated. cbn [initialUrl set_tabs].
  unfold Tab_loadURL, set_windows, set_tab_objects, set_next_id, set_tabs.
  destruct (url_truthy (initialUrl w)); cbn; rewrite ?alter_last; cbn;
    rewrite ?alter_last; split; reflexivity.
Qed.

(** X18.  A request of some content to open a URL in a foreground tab, a
    background tab or a new window never makes a new window: when the
    content's owning window resolves, exactly one tab is created in that
    window and navigated to the URL, and its content handle is
    returned; when it resolves to nothing the callback throws and
    nothing changes. *)
Theorem windowOpen_lands_in_owning_window st wc u :
  (∀ i w, getWindowFromWebContents wc st = Ok (Some (i, w)) →
     ∃ tab st',
       windowOpen_createWindow wc u st = (Ok (tab_webContents tab), st')
       ∧ tab_objects st' = tab_objects st ++ [tab]
       ∧ last (tab_loads tab) = Some (Given u)
       ∧ tab_window tab = tabs_window (tabs w)
       ∧ electron st' = electron st
       ∧ window_ids st' = window_ids st
       ∧ (tabList ∘ tabs <$> windows st' !! i)
         = Some (tabList (tabs w) ++ [length (tab_objects st)]))
  ∧ (getWindowFromWebContents wc st = Ok None →
     windowOpen_createWindow wc u st
     = (Throw (TypeError "Cannot read properties of null"), st)).
Proof.
  split.
  - intros i w Hres. pose proof (getWindowFromWebContents_tracked _ _ _ _ Hres) as Hw.
    assert (i < length (windows st)) as Hlt by (eapply lookup_lt_Some; eauto).
    unfold windowOpen_createWindow. rewrite Hres.
    destruct (Tabs_create_then_load i w st (Given u)) as [Hstate Hfst].
    destruct (Tabs_create i w st) as [[t tab] st1]. cbn [fst snd] in *.
    injection Hfst as -> ->. rewrite Hstate.
    exists (MkTab (next_id st) (tabs_window (tabs w)) (next_id st)
                  ((if url_truthy (initialUrl w) then [initialUrl w] else [])
                   ++ [Given u])).
    eexists. split; [reflexivity|]. cbn.
    split; [reflexivity|]. split; [apply last_snoc|]. split; [reflexivity|].
    split; [reflexivity|]. split.
    + unfold window_ids. cbn. apply (fmap_insert_same id _ _ w); done.
    + rewrite list_lookup_insert_eq by exact Hlt. reflexivity.
  - intros Hres. unfold windowOpen_createWindow. rewrite Hres. reflexivity.
Qed.

(** The window's own content opens a link; a background page does while
    no window has the focus. *)
Lemma windowOpen_lands_in_owning_window_witness :
  (∃ tab st',
     windowOpen_createWindow (MkWebContents 2 "window" None)
       (JStr "https://example.test") ready = (Ok (tab_webContents tab), st')
     ∧ tab_objects st' = tab_objects ready ++ [tab]
     ∧ window_ids st' = window_ids ready)
  ∧ windowOpen_createWindow backgroundPage (JStr "https://example.test") ready
    = (Throw (TypeError "Cannot read properties of null"), ready).
Proof.
  destruct (windowOpen_lands_in_owning_window ready (MkWebContents 2 "window" None)
              (JStr "https://example.test")) as [Hsome _].
  destruct (windowOpen_lands_in_owning_window ready backgroundPage
              (JStr "https://example.test")) as [_ Hnone].
  assert (∃ w, getWindowFromWebContents (MkWebContents 2 "window" None) ready
               = Ok (Some (0, w))) as (w & Hres) by (eexists; vm_compute; reflexivity).
  destruct (Hsome 0 w Hres) as (tab & st' & Hrun & Hobjs & _ & _ & _ & Hids & _).
  split.
  - exists tab, st'. auto.
  - apply Hnone. vm_compute. reflexivity.
Defined.

(** [tabs.create()] in full. *)
Lemma Tabs_create_state i w st :
  Tabs_create i w st
  = ((length (tab_objects st),
      MkTab (next_id st) (tabs_window (tabs w)) (next_id st) []),
     MkBrowser
       (<[i := set_tabs
                 (MkTabs (tabs_window (tabs w))
                         (tabList (tabs w) ++ [length (tab_objects st)])
                         (match selected (tabs w) with
                          | Some s => Some s
                          | None => Some (length (tab_objects st))
                          end)) w]> (windows st))
       (electron st)
       (tab_objects st
        ++ [MkTab (next_id st) (tabs_window (tabs w)) (next_id st)
                  (if url_truthy (initialUrl w) then [initialUrl w] else [])])
       (popup st) (webuiExtensionId st) (next_id st + 1) (microtasks st)).
Proof.
  unfold Tabs_create, onTabCreated. cbn [initialUrl set_tabs].
  unfold Tab_loadURL, set_windows, set_tab_objects, set_next_id, set_tabs.
  destruct (url_truthy (initialUrl w)); cbn; rewrite ?alter_last; reflexivity.
Qed.

Lemma tab_objects_win_tabs_select i tabId st :
  tab_objects (win_tabs_select i tabId st) = tab_objects st.
Proof.
  unfold win_tabs_select, Tabs_select. destruct (window_at i st); [|reflexivity].
  destruct (find _ _); reflexivity.
Qed.

(** X19.  [createTab] without a URL (absent, or any falsy value) still
    creates the tab in the resolved window and returns its handles: the
    tab stays at the window's initial URL, and the fallback to
    [newTabUrl] written at line 203 is never evaluated, so the call
    does not throw. *)
Theorem createTab_without_url st n u a i w :
  find_window (JNum n) st = Some (i, w) →
  truthy u = false →
  ∃ tab st',
    createTab (MkDetails (JNum n) u a) st
    = (Ok (tab_webContents tab, tab_window tab), st')
    ∧ tab_objects st' = tab_objects st ++ [tab]
    ∧ tab_loads tab = (if url_truthy (initialUrl w) then [initialUrl w] else [])
    ∧ tab_window tab = tabs_window (tabs w).
Proof.
  intros Hfind Hu. unfold createTab. cbn [windowId url active].
  rewrite Hfind, Hu, Tabs_create_state.
  exists (MkTab (next_id st) (tabs_window (tabs w)) (next_id st)
                (if url_truthy (initialUrl w) then [initialUrl w] else [])).
  eexists. split; [reflexivity|].
  split; [|split; reflexivity].
  destruct (activation a); [rewrite tab_objects_win_tabs_select|]; reflexivity.
Qed.

(** A tab without URL in the window of the running controller. *)
Lemma createTab_without_url_witness :
  ∃ tab st',
    createTab (MkDetails (JNum 1) JUndefined JUndefined) ready
    = (Ok (tab_webContents tab, tab_window tab), st')
    ∧ tab_loads tab = [PathJoin ["chrome-extension://"; "webui"; "new-tab.html"]].
Proof.
  assert (∃ w, find_window (JNum 1) ready = Some (0, w)
               ∧ initialUrl w = PathJoin ["chrome-extension://"; "webui"; "new-tab.html"])
    as (w & Hfind & Hurl) by (eexists; split; vm_compute; reflexivity).
  assert (truthy JUndefined = false) as Hu by reflexivity.
  destruct (createTab_without_url ready 1 JUndefined JUndefined 0 w Hfind Hu)
    as (tab & st' & Hrun & _ & Hloads & _).
  exists tab, st'. split; [exact Hrun|]. rewrite Hloads, Hurl. reflexivity.
Defined.

(** [Browser.createWindow] in full, once the bundled extension is
    loaded. *)
Lemma createWindow_state u st extId :
  webuiExtensionId st = Some extId →
  createWindow u st
  = (Ok (MkWindow (next_id st) (length (electron st)) (next_id st + 1)
                  (MkTabs (length (electron st)) [] None) u),
     MkBrowser
       (windows st
        ++ [MkWindow (next_id st) (length (electron st)) (next_id st + 1)
                     (MkTabs (length (electron st)) [] None) u])
       (electron st
        ++ [MkBrowserWindow (next_id st) (next_id st + 1) false false
              [PathJoin ["chrome-extension://"; extId; "/webui.html"]]])
       (tab_objects st) (popup st) (Some extId) (next_id st + 2)
       (microtasks st ++ [length (windows st)])).
Proof.
  intros Hext. unfold createWindow, TabbedBrowserWindow_new, BrowserWindow_new.
  cbn [webuiExtensionId set_next_id set_electron]. rewrite Hext.
  unfold BrowserWindow_loadURL, set_microtasks, set_windows, set_electron, set_next_id.
  cbn [electron windows tab_objects popup webuiExtensionId next_id microtasks
       bw_id bw_webContents].
  rewrite alter_last, ?Hext. reflexivity.
Qed.

Lemma run_microtask_state st i q w :
  microtasks st = i :: q → windows st !! i = Some w →
  run_microtask st = snd (Tabs_create i w (set_microtasks q st)).
Proof.
  intros Hq Hw. unfold run_microtask, win_tabs_create, window_at. rewrite Hq.
  cbn [windows set_microtasks]. rewrite Hw.
  destruct (Tabs_create i w (set_microtasks q st)). reflexivity.
Qed.

Lemma insert_last {A} (l : list A) (x y : A) : <[length l := y]> (l ++ [x]) = l ++ [y].
Proof.
  replace (length l) with (length l + 0) by lia. rewrite insert_app_r. reflexivity.
Qed.

(** X20.  A new window has no tab when [createWindow] returns; its first
    tab is created by the microtask its constructor queued, belongs to
    the new window, and is navigated to the window's initial URL (when
    that is truthy), through the [tab-created] handler. *)
Theorem first_tab_comes_with_microtask st u extId :
  webuiExtensionId st = Some extId →
  microtasks st = [] →
  ∃ win st1,
    createWindow u st = (Ok win, st1)
    ∧ windows st1 = windows st ++ [win]
    ∧ tabList (tabs win) = []
    ∧ tab_objects st1 = tab_objects st
    ∧ ∃ win' tab,
        windows (run_microtask st1) = windows st ++ [win']
        ∧ id win' = id win ∧ window win' = window win
        ∧ tabList (tabs win') = [length (tab_objects st)]
        ∧ tab_objects (run_microtask st1) = tab_objects st ++ [tab]
        ∧ tab_window tab = window win
        ∧ tab_loads tab = (if url_truthy u then [u] else [])
        ∧ microtasks (run_microtask st1) = [].
Proof.
  intros Hext Hq. rewrite (createWindow_state u st extId Hext), Hq.
  eexists _, _. split; [reflexivity|]. cbn [windows tabs tabList tab_objects].
  split; [reflexivity|]. split; [reflexivity|]. split; [reflexivity|].
  erewrite run_microtask_state;
    [|reflexivity|cbn [windows]; rewrite lookup_app_r by lia;
                  rewrite Nat.sub_diag; reflexivity].
  rewrite Tabs_create_state.
  cbn [snd windows electron tab_objects popup webuiExtensionId next_id microtasks
       tabs tabList selected tabs_window initialUrl id window set_tabs
       set_microtasks app].
  rewrite insert_last.
  eexists _, (MkTab _ _ _ _). split; [reflexivity|]. cbn. repeat split.
Qed.

(** A second window for the running controller. *)
Lemma first_tab_comes_with_microtask_witness :
  ∃ win st1,
    createWindow (Given (JStr "https://example.test")) ready = (Ok win, st1)
    ∧ tabList (tabs win) = []
    ∧ ∃ win' tab,
        windows (run_microtask st1) = windows ready ++ [win']
        ∧ tabList (tabs win') = [1]
        ∧ tab_loads tab = [Given (JStr "https://example.test")].
Proof.
  assert (webuiExtensionId ready = Some "webui") as Hext by reflexivity.
  assert (microtasks ready = []) as Hq by reflexivity.
  destruct (first_tab_comes_with_microtask ready (Given (JStr "https://example.test"))
              "webui" Hext Hq)
    as (win & st1 & Hrun & _ & Hnone & _ & win' & tab & Hwins & _ & _ & Hlist & _ & _
        & Hloads & _).
  exists win, st1. split; [exact Hrun|]. split; [exact Hnone|].
  exists win', tab. split; [exact Hwins|]. split; [exact Hlist|exact Hloads].
Defined.

(** X21.  [init] creates the initial window, whose tabs open the
    bundled extension's [new-tab.html], whatever the scan of the user's
    extensions does, also when it rejects; when the bundled extension
    itself fails to load, [init] rejects and no window is created. *)
Theorem init_creates_initial_window {Info} (load : Loader.Path → result Info)
    root extensionsPath st :
  (∀ extId, ∃ win st',
     init (Ok extId) load root extensionsPath st = (Ok tt, st')
     ∧ windows st' = windows st ++ [win]
     ∧ initialUrl win = PathJoin ["chrome-extension://"; extId; "new-tab.html"]
     ∧ webuiExtensionId st' = Some extId)
  ∧ (∀ e, init (Throw e) load root extensionsPath st = (Throw e, st)).
Proof.
  split; [|reflexivity].
  intros extId. unfold init, createInitialWindow, newTabUrl_of.
  cbn [webuiExtensionId set_webuiExtensionId].
  rewrite (createWindow_state _ _ extId) by reflexivity.
  destruct (Loader.loadExtensions load root extensionsPath);
    eexists _, _; (split; [reflexivity|]); cbn; repeat split.
Qed.

(** X22.  A link opened from the context menu with a disposition other
    than [new-window] lands in a tab of the window [getFocusedWindow]
    returns, without adding a window; when no window is tracked there is
    no such window and the call throws, changing nothing. *)
Theorem openLink_lands_in_focused_window st u disposition :
  disposition ≠ "new-window" →
  (∀ i w, focused_window st = Ok (Some (i, w)) →
     ∃ tab st',
       openLink u disposition st = (Ok tt, st')
       ∧ tab_objects st' = tab_objects st ++ [tab]
       ∧ last (tab_loads tab) = Some (Given u)
       ∧ electron st' = electron st
       ∧ window_ids st' = window_ids st
       ∧ (tabList ∘ tabs <$> windows st' !! i)
         = Some (tabList (tabs w) ++ [length (tab_objects st)]))
  ∧ (windows st = [] →
     openLink u disposition st
     = (Throw (TypeError "Cannot read properties of undefined"), st)).
Proof.
  intros Hd. apply String.eqb_neq in Hd. split.
  - intros i w Hfoc. pose proof (focused_window_tracked _ _ _ Hfoc) as Hw.
    assert (i < length (windows st)) as Hlt by (eapply lookup_lt_Some; eauto).
    unfold openLink. rewrite Hfoc, Hd.
    destruct (Tabs_create_then_load i w st (Given u)) as [Hstate Hfst].
    destruct (Tabs_create i w st) as [[t tab] st1]. cbn [fst snd] in *.
    injection Hfst as -> ->. rewrite Hstate.
    exists (MkTab (next_id st) (tabs_window (tabs w)) (next_id st)
                  ((if url_truthy (initialUrl w) then [initialUrl w] else [])
                   ++ [Given u])).
    eexists. split; [reflexivity|]. cbn.
    split; [reflexivity|]. split; [apply last_snoc|]. split; [reflexivity|]. split.
    + unfold window_ids. cbn. apply (fmap_insert_same id _ _ w); done.
    + rewrite list_lookup_insert_eq by exact Hlt. reflexivity.
  - intros Hnil. unfold openLink, focused_window. rewrite Hnil. cbn. rewrite Hd.
    reflexivity.
Qed.

(** A link opened in the running controller, and in a controller
    without windows. *)
Lemma openLink_lands_in_focused_window_witness :
  (∃ tab st',
     openLink (JStr "https://example.test") "foreground-tab" ready = (Ok tt, st')
     ∧ tab_objects st' = tab_objects ready ++ [tab]
     ∧ window_ids st' = window_ids ready)
  ∧ openLink (JStr "https://example.test") "foreground-tab" (fresh_controller 1)
    = (Throw (TypeError "Cannot read properties of undefined"), fresh_controller 1).
Proof.
  assert ("foreground-tab" ≠ "new-window") as Hd by discriminate.
  assert (∃ w, focused_window ready = Ok (Some (0, w))) as (w & Hfoc)
    by (eexists; vm_compute; reflexivity).
  destruct (openLink_lands_in_focused_window ready (JStr "https://example.test")
              "foreground-tab" Hd) as [Hsome _].
  destruct (openLink_lands_in_focused_window (fresh_controller 1)
              (JStr "https://example.test") "foreground-tab" Hd) as [_ Hnone].
  destruct (Hsome 0 w Hfoc) as (tab & st' & Hrun & Hobjs & _ & _ & Hids & _).
  split; [exists tab, st'; auto|]. apply Hnone. reflexivity.
Defined.

(** X23.  The resolution of the owning window throws exactly when the
    content is not the tracked popup's and its type is none of
    [window], [browserView], [webview] and [backgroundPage]; the error
    then names the type.  The popup's content resolves through the
    popup's parent whatever its type. *)
Theorem owner_resolution_errors wc st :
  (∀ e, getWindowFromWebContents wc st = Throw e ↔
        (is_popup_content wc st = None
         ∧ (wc_type wc ∉ ["window"; "browserView"; "webview"; "backgroundPage"])
         ∧ e = UnableToFindParentWindow (wc_type wc)))
  ∧ (∀ p, is_popup_content wc st = Some p →
          getWindowFromWebContents wc st
          = Ok (getWindowFromBrowserWindow (popup_parent p) st)).
Proof.
  split.
  - intros e. unfold getWindowFromWebContents, getParentWindowOfTab.
    destruct (is_popup_content wc st) as [p|]; cbn.
    + split; [discriminate|]. intros [H _]. discriminate.
    + destruct (String.eqb_spec (wc_type wc) "window") as [Hw|Hw].
      { cbn. split; [destruct (BrowserWindow_fromWebContents wc st); discriminate|].
        intros (_ & Hnot & _). exfalso. apply Hnot. rewrite Hw. left. }
      destruct (String.eqb_spec (wc_type wc) "browserView") as [Hb|Hb].
      { cbn. split; [destruct (wc_owner wc); discriminate|].
        intros (_ & Hnot & _). exfalso. apply Hnot. rewrite Hb. right. left. }
      destruct (String.eqb_spec (wc_type wc) "webview") as [Hv|Hv].
      { cbn. split; [destruct (wc_owner wc); discriminate|].
        intros (_ & Hnot & _). exfalso. apply Hnot. rewrite Hv. right. right. left. }
      destruct (String.eqb_spec (wc_type wc) "backgroundPage") as [Hg|Hg].
      { cbn. split; [destruct (BrowserWindow_getFocusedWindow st); discriminate|].
        intros (_ & Hnot & _). exfalso. apply Hnot. rewrite Hg.
        right. right. right. left. }
      cbn. split.
      * intros [= <-]. split; [reflexivity|]. split; [|reflexivity].
        intros Hin. repeat (apply elem_of_cons in Hin as [Hin|Hin]; [congruence|]).
        inversion Hin.
      * intros (_ & _ & ->). reflexivity.
  - intros p Hp. unfold getWindowFromWebContents. rewrite Hp. reflexivity.
Qed.

(** A content of type [remote] in the running controller. *)
Lemma owner_resolution_errors_witness :
  getWindowFromWebContents (MkWebContents 60 "remote" None) ready
  = Throw (UnableToFindParentWindow "remote").
Proof.
  apply (proj1 (owner_resolution_errors (MkWebContents 60 "remote" None) ready)).
  split; [reflexivity|]. split; [|reflexivity].
  intros Hin. repeat (apply elem_of_cons in Hin as [Hin|Hin]; [discriminate|]).
  inversion Hin.
Defined.

End ControllerFacts.

(** * The selected tab *)

Section SelectionFacts.
Import Shell Handlers Scenario.

Implicit Types (st : Browser) (w win : TabbedBrowserWindow) (details : Details).









Lemma isDestroyed_app h st (more : list BrowserWindowObj) :
  h < length (electron st) →
  isDestroyed h (set_electron (electron st ++ more) st) = isDestroyed h st.
Proof.
  intros Hlt. unfold isDestroyed. cbn [electron set_electron].
  rewrite lookup_app_l by exact Hlt. reflexivity.
Qed.
















End SelectionFacts.

(** * [windows] under every operation *)

Section TrackedWindows.
Import Shell Handlers Scenario.

Implicit Types (st : Browser) (w win : TabbedBrowserWindow) (details : Details).

Lemma window_ids_tracked st st' : tracked st' = tracked st → window_ids st' = window_ids st.
Proof.
  unfold tracked, window_ids. intros Ht.
  assert (snd <$> ((λ w, (window w, id w)) <$> windows st')
          = snd <$> ((λ w, (window w, id w)) <$> windows st)) as H by (rewrite Ht; reflexivity).
  rewrite <- !list_fmap_compose in H. exact H.
Qed.

Lemma window_ids_handle ev st :
  ∃ more, window_ids (handle st ev) = window_ids st ++ more.
Proof.
  assert (∀ st', tracked st' = tracked st →
                 ∃ more, window_ids st' = window_ids st ++ more) as Hsame.
  { intros st' Ht. exists []. rewrite app_nil_r. apply window_ids_tracked, Ht. }
  assert (∀ (r : result TabbedBrowserWindow * Browser) (k : result unit * Browser),
            snd k = snd r → (∃ more, window_ids (snd r) = window_ids st ++ more) →
            ∃ more, window_ids (snd k) = window_ids st ++ more) as Hvia.
  { intros r k -> H. exact H. }
  destruct ev as [c|tab h|wc u|u disposition| |p|webui]; cbn [handle].
  - apply window_ids_exec.
  - apply Hsame, keeps_selectTab.
  - apply Hsame, keeps_windowOpen.
  - unfold openLink.
    destruct (focused_window st) as [win|e] eqn:Hfoc; [|apply Hsame; reflexivity].
    destruct (String.eqb disposition "new-window").
    + apply (Hvia (createWindow (Given u) st)); [|apply window_ids_createWindow].
      destruct (createWindow (Given u) st) as [[w|e] st1]; reflexivity.
    + destruct win as [[i w]|]; [|apply Hsame; reflexivity].
      apply focused_window_tracked in Hfoc.
      pose proof (keeps_Tabs_create i w st Hfoc) as Hcreate.
      destruct (Tabs_create i w st) as [[t tab] st1]. cbn [snd] in *.
      apply Hsame. destruct Hcreate as [Ht _]. exact Ht.
  - unfold on_activate.
    destruct (BrowserWindow_getAllWindows st); [|apply Hsame; reflexivity].
    apply (Hvia (createInitialWindow st)); [|apply (window_ids_exec DoCreateInitialWindow)].
    destruct (createInitialWindow st) as [[w|e] st1]; reflexivity.
  - apply Hsame. reflexivity.
  - unfold init. destruct webui as [extId|e]; [|apply Hsame; reflexivity].
    destruct (Loader.loadExtensions _ _ _);
      (apply (Hvia (createInitialWindow (set_webuiExtensionId extId st)));
       [destruct (createInitialWindow (set_webuiExtensionId extId st)) as [[w|err] st1];
        reflexivity
       |apply (window_ids_exec DoCreateInitialWindow (set_webuiExtensionId extId st))]).
Qed.

(** X24.  No operation of the controller takes a window out of
    [windows]: after any sequence of provider calls, handler runs, queued
    tab creations, [activate] and [init], the identifiers of the tracked
    windows are the ones tracked before, in the same order, followed by
    those of the windows created since.  In particular a window destroyed
    by [removeWindow] stays tracked whatever happens afterwards. *)
Theorem windows_are_never_dropped evs st :
  ∃ more, window_ids (handle_all evs st) = window_ids st ++ more.
Proof.
  revert st. induction evs as [|ev evs IH]; intros st; cbn.
  - exists []. rewrite app_nil_r. reflexivity.
  - destruct (window_ids_handle ev st) as [m1 H1].
    destruct (IH (handle st ev)) as [m2 H2].
    exists (m1 ++ m2). unfold handle_all in H2. rewrite H2, H1, app_assoc. reflexivity.
Qed.

End TrackedWindows.
